(** * A shallow embedding of the ESP32 remote-control core engine

    Sources: [include/esp32_rc_common.h] (wire structs, addresses, metrics),
    [src/esp32_rc.cpp] (engine: connection state, inbound/outbound queues,
    send/receive wrappers, global metrics switch) and the backends
    [src/esp32_rc_espnow.cpp], [src/esp32_rc_wifi.cpp], [src/esp32_rc_nrf24.cpp].

    Bytes are [Z] values in [0, 256); [unsigned long] and [uint32_t] are
    32-bit on the ESP32 and are written with their wrap-around modulo 2^32.
    A [float] field of the payload is represented by its 32-bit IEEE-754
    bit pattern, which is what [memcpy] moves. FreeRTOS queues are lists
    (head = oldest) with the documented [xQueueSend] / [xQueueReceive] /
    [xQueueOverwrite] semantics. *)

From Stdlib Require Import ZArith List Bool Lia QArith.
Import ListNotations.
Open Scope Z_scope.

(** ** Constants (esp32_rc_common.h) *)

Definition RCMSG_TYPE_DATA : Z := 0.
Definition RCMSG_TYPE_HEARTBEAT : Z := 3.
Definition RC_MESSAGE_MAX_SIZE : Z := 32.
Definition RC_PAYLOAD_MAX_SIZE : Z := 25.
Definition RC_ADDR_SIZE : nat := 6.
Definition RC_MAX_ADDR_SIZE : Z := 16.
Definition QUEUE_DEPTH_SEND : nat := 10.
Definition QUEUE_DEPTH_RECV : nat := 10.
Definition HEARTBEAT_TIMEOUT_MS : Z := 300.

Definition ULONG_MOD : Z := 2 ^ 32.
Definition u32 (x : Z) : Z := x mod ULONG_MOD.

(** ** Wire structures *)

(** [struct RCPayload_t] (packed, 25 bytes). *)
Record RCPayload := mkPayload {
  id1 : Z; id2 : Z; id3 : Z; id4 : Z;
  value1 : Z; value2 : Z; value3 : Z; value4 : Z; value5 : Z;
  flags : Z
}.

(** [struct RCMessage_t] (packed, 32 bytes): 1 type byte, 6 address bytes,
    25 payload bytes. *)
Record RCMessage := mkMsg {
  type : Z;
  from_addr : list Z;
  payload : list Z
}.

(** Little-endian layout of a 32-bit word (the ESP32 is little-endian). *)
Definition le32 (w : Z) : list Z :=
  [w mod 256; (w / 2 ^ 8) mod 256; (w / 2 ^ 16) mod 256; (w / 2 ^ 24) mod 256].

Definition le32_dec (b0 b1 b2 b3 : Z) : Z :=
  b0 + 2 ^ 8 * b1 + 2 ^ 16 * b2 + 2 ^ 24 * b3.

(** Bytes of an [RCPayload_t] object, in field order. *)
Definition payload_bytes (p : RCPayload) : list Z :=
  [id1 p; id2 p; id3 p; id4 p] ++ le32 (value1 p) ++ le32 (value2 p)
  ++ le32 (value3 p) ++ le32 (value4 p) ++ le32 (value5 p) ++ [flags p].

(** [*msg.getPayload()]: the 25 payload bytes read as an [RCPayload_t]. *)
Definition getPayload (bs : list Z) : RCPayload :=
  let b i := nth i bs 0 in
  mkPayload (b 0%nat) (b 1%nat) (b 2%nat) (b 3%nat)
    (le32_dec (b 4%nat) (b 5%nat) (b 6%nat) (b 7%nat))
    (le32_dec (b 8%nat) (b 9%nat) (b 10%nat) (b 11%nat))
    (le32_dec (b 12%nat) (b 13%nat) (b 14%nat) (b 15%nat))
    (le32_dec (b 16%nat) (b 17%nat) (b 18%nat) (b 19%nat))
    (le32_dec (b 20%nat) (b 21%nat) (b 22%nat) (b 23%nat))
    (b 24%nat).

(** [RCMessage_t::setPayload]: [memcpy(payload, &data, sizeof(RCPayload_t))]. *)
Definition setPayload (m : RCMessage) (p : RCPayload) : RCMessage :=
  mkMsg (type m) (from_addr m) (payload_bytes p).

(** [RCMessage_t msg = {}]. *)
Definition zero_msg : RCMessage :=
  mkMsg 0 (repeat 0 6) (repeat 0 25).

(** [memcpy(&msg, data, sizeof(RCMessage_t))]. *)
Definition msg_of_bytes (bs : list Z) : RCMessage :=
  mkMsg (nth 0 bs 0) (firstn 6 (skipn 1 bs)) (firstn 25 (skipn 7 bs)).

(** ** Backend frame parsers *)

(** [ESP32_RC_ESPNOW::parseRawData]; [None] is a null [data] pointer. *)
Definition parseRawData_espnow (data : option (list Z)) (len : Z) : RCMessage :=
  match data with
  | None => zero_msg
  | Some bs =>
      if negb (len =? RC_MESSAGE_MAX_SIZE) then zero_msg
      else if RC_MESSAGE_MAX_SIZE <? len then zero_msg
      else
        let msg := msg_of_bytes bs in
        if negb (type msg =? RCMSG_TYPE_DATA) && negb (type msg =? RCMSG_TYPE_HEARTBEAT)
        then zero_msg
        else msg
  end.

(** [ESP32_RC_ESPNOW::onDataRecvStatic] builds the message handed to the
    engine: the parsed frame with [from_addr] overwritten by the sender MAC. *)
Definition espnow_rx_msg (mac : list Z) (data : option (list Z)) (len : Z) : RCMessage :=
  let msg := parseRawData_espnow data len in
  mkMsg (type msg) (firstn RC_ADDR_SIZE mac) (payload msg).

(** ** Addresses ([struct RCAddress_t]) *)

Record RCAddress := mkAddr {
  addr_data : list Z;   (** [uint8_t data[RC_MAX_ADDR_SIZE]] *)
  addr_size : Z         (** [uint8_t size] *)
}.

(** [RCAddress_t()]: size 0, data zeroed. *)
Definition RCAddress_empty : RCAddress := mkAddr (repeat 0 16) 0.

Definition isValid (a : RCAddress) : bool :=
  (0 <? addr_size a) && (addr_size a <=? RC_MAX_ADDR_SIZE).

(** [for (uint8_t i = 0; i < size; i++) if (data[i] != 0xFF) return false;] *)
Fixpoint all_ff_upto (n : nat) (d : list Z) : bool :=
  match n, d with
  | O, _ => true
  | S n', x :: d' => (x =? 255) && all_ff_upto n' d'
  | S _, [] => false
  end.

Definition isBroadcast (a : RCAddress) : bool :=
  if negb (isValid a) then false
  else all_ff_upto (Z.to_nat (addr_size a)) (addr_data a).

(** [memcpy(broadcast_addr, pattern, RC_ADDR_SIZE)] writes the first six
    bytes of the object, i.e. [data[0..5]]; [size] is not written. *)
Definition write_addr_prefix (pattern : list Z) (a : RCAddress) : RCAddress :=
  mkAddr (pattern ++ skipn (length pattern) (addr_data a)) (addr_size a).

(** [ESP32RemoteControl::createBroadcastAddress] and
    [ESP32_RC_ESPNOW::createBroadcastAddress]: six 0xFF bytes. *)
Definition createBroadcastAddress_base (a : RCAddress) : RCAddress :=
  write_addr_prefix [255; 255; 255; 255; 255; 255] a.
Definition createBroadcastAddress_espnow (a : RCAddress) : RCAddress :=
  write_addr_prefix [255; 255; 255; 255; 255; 255] a.
(** [ESP32_RC_WIFI::createBroadcastAddress]: [{255, 255, 255, 255, 0, 0}]. *)
Definition createBroadcastAddress_wifi (a : RCAddress) : RCAddress :=
  write_addr_prefix [255; 255; 255; 255; 0; 0] a.
(** [ESP32_RC_NRF24::createBroadcastAddress]: [{0xF0, 0xF0, 0xF0, 0xF0, 0xAA, 0x00}]. *)
Definition createBroadcastAddress_nrf24 (a : RCAddress) : RCAddress :=
  write_addr_prefix [240; 240; 240; 240; 170; 0] a.

Inductive Backend := BASE | ESPNOW | WIFI | NRF24.

Definition createBroadcastAddress (b : Backend) : RCAddress -> RCAddress :=
  match b with
  | BASE => createBroadcastAddress_base
  | ESPNOW => createBroadcastAddress_espnow
  | WIFI => createBroadcastAddress_wifi
  | NRF24 => createBroadcastAddress_nrf24
  end.

(** ** Metrics ([struct Metrics_t]) *)

Record Metrics := mkMetrics {
  successful : Z; failed : Z; total : Z;
  start_time_ms : Z; last_reset_ms : Z;
  m_in : Z; m_out : Z; m_err : Z
}.

(** [Metrics_t()] at time [now] ([millis()]). *)
Definition Metrics_init (now : Z) : Metrics := mkMetrics 0 0 0 now now 0 0 0.

(** The two globals involved in the metrics switch: [rc_metrics_enabled]
    (defined in esp32_rc.cpp, written by [enableGlobalMetrics]) and
    [RC_METRICS_ENABLED] (declared [extern] in esp32_rc_common.h and read by
    [Metrics_t::addSuccess] / [addFailure]). *)
Record Globals := mkGlobals {
  rc_metrics_enabled : bool;
  RC_METRICS_ENABLED : bool
}.

(** [ESP32RemoteControl::enableGlobalMetrics]: [rc_metrics_enabled = enable]. *)
Definition enableGlobalMetrics (enable : bool) (g : Globals) : Globals :=
  mkGlobals enable (RC_METRICS_ENABLED g).

(** [Metrics_t::addSuccess]. *)
Definition addSuccess (g : Globals) (m : Metrics) : Metrics :=
  if negb (RC_METRICS_ENABLED g) then m
  else mkMetrics (u32 (successful m + 1)) (failed m) (u32 (total m + 1))
         (start_time_ms m) (last_reset_ms m) (m_in m) (u32 (m_out m + 1)) (m_err m).

(** [Metrics_t::addFailure]. *)
Definition addFailure (g : Globals) (m : Metrics) : Metrics :=
  if negb (RC_METRICS_ENABLED g) then m
  else mkMetrics (successful m) (u32 (failed m + 1)) (u32 (total m + 1))
         (start_time_ms m) (last_reset_ms m) (m_in m) (m_out m) (u32 (m_err m + 1)).

(** [Metrics_t::reset] at time [now]. *)
Definition reset (now : Z) (m : Metrics) : Metrics :=
  mkMetrics 0 0 0 (start_time_ms m) now 0 0 0.

(** [Metrics_t::getTransactionRate] at time [now]; the [float] arithmetic
    is read as exact rational arithmetic. *)
Definition getTransactionRate (now : Z) (m : Metrics) : Q :=
  let elapsed_ms := u32 (now - start_time_ms m) in
  if elapsed_ms <? 1000 then 0%Q
  else Qmake (total m * 1000) (Z.to_pos elapsed_ms).

(** [Metrics_t::getSuccessRate_TPS] at time [now]. *)
Definition getSuccessRate_TPS (now : Z) (m : Metrics) : Q :=
  let elapsed_ms := u32 (now - start_time_ms m) in
  if elapsed_ms <? 1000 then 0%Q
  else Qmake (successful m * 1000) (Z.to_pos elapsed_ms).

(** ** Connection engine ([class ESP32RemoteControl]) *)

(** [enum class RCConnectionState_t]. *)
Inductive RCConnectionState := DISCONNECTED | CONNECTING | CONNECTED | ERROR.

Definition conn_eqb (a b : RCConnectionState) : bool :=
  match a, b with
  | DISCONNECTED, DISCONNECTED | CONNECTING, CONNECTING
  | CONNECTED, CONNECTED | ERROR, ERROR => true
  | _, _ => false
  end.

(** The engine's fields that the claims observe. The receive callback is
    observed through [callback_log], the messages it has been called with
    (oldest first); [sent_log] lists the messages handed to [lowLevelSend]. *)
Record Engine := mkEngine {
  conn_state : RCConnectionState;
  fast_mode : bool;
  send_depth : nat;
  recv_depth : nat;
  queue_send : list RCMessage;
  queue_recv : list RCMessage;
  last_heartbeat_rx_ms : Z;
  peer_addr : list Z;
  my_addr : list Z;
  send_metrics : Metrics;
  recv_metrics : Metrics;
  recv_callback : bool;
  callback_log : list RCMessage;
  sent_log : list RCMessage;
  timer_active : bool
}.

(** [ESP32RemoteControl(bool fast_mode)] at time [now]. *)
Definition Engine_init (fast : bool) (now : Z) : Engine :=
  mkEngine DISCONNECTED fast
    (if fast then 1%nat else QUEUE_DEPTH_SEND) (if fast then 1%nat else QUEUE_DEPTH_RECV)
    [] [] 0 (repeat 0 6) (repeat 0 6) (Metrics_init now) (Metrics_init now)
    false [] [] false.

(** Functional field updates. *)
Definition set_conn_state (s : RCConnectionState) (e : Engine) : Engine :=
  mkEngine s (fast_mode e) (send_depth e) (recv_depth e) (queue_send e) (queue_recv e)
    (last_heartbeat_rx_ms e) (peer_addr e) (my_addr e) (send_metrics e) (recv_metrics e)
    (recv_callback e) (callback_log e) (sent_log e) (timer_active e).
Definition set_peer_addr (a : list Z) (e : Engine) : Engine :=
  mkEngine (conn_state e) (fast_mode e) (send_depth e) (recv_depth e) (queue_send e) (queue_recv e)
    (last_heartbeat_rx_ms e) a (my_addr e) (send_metrics e) (recv_metrics e)
    (recv_callback e) (callback_log e) (sent_log e) (timer_active e).
Definition set_last_rx (t : Z) (e : Engine) : Engine :=
  mkEngine (conn_state e) (fast_mode e) (send_depth e) (recv_depth e) (queue_send e) (queue_recv e)
    t (peer_addr e) (my_addr e) (send_metrics e) (recv_metrics e)
    (recv_callback e) (callback_log e) (sent_log e) (timer_active e).
Definition set_queue_recv (q : list RCMessage) (e : Engine) : Engine :=
  mkEngine (conn_state e) (fast_mode e) (send_depth e) (recv_depth e) (queue_send e) q
    (last_heartbeat_rx_ms e) (peer_addr e) (my_addr e) (send_metrics e) (recv_metrics e)
    (recv_callback e) (callback_log e) (sent_log e) (timer_active e).
Definition set_queue_send (q : list RCMessage) (e : Engine) : Engine :=
  mkEngine (conn_state e) (fast_mode e) (send_depth e) (recv_depth e) q (queue_recv e)
    (last_heartbeat_rx_ms e) (peer_addr e) (my_addr e) (send_metrics e) (recv_metrics e)
    (recv_callback e) (callback_log e) (sent_log e) (timer_active e).
Definition set_recv_metrics (m : Metrics) (e : Engine) : Engine :=
  mkEngine (conn_state e) (fast_mode e) (send_depth e) (recv_depth e) (queue_send e) (queue_recv e)
    (last_heartbeat_rx_ms e) (peer_addr e) (my_addr e) (send_metrics e) m
    (recv_callback e) (callback_log e) (sent_log e) (timer_active e).
Definition set_send_metrics (m : Metrics) (e : Engine) : Engine :=
  mkEngine (conn_state e) (fast_mode e) (send_depth e) (recv_depth e) (queue_send e) (queue_recv e)
    (last_heartbeat_rx_ms e) (peer_addr e) (my_addr e) m (recv_metrics e)
    (recv_callback e) (callback_log e) (sent_log e) (timer_active e).
Definition set_callback_log (l : list RCMessage) (e : Engine) : Engine :=
  mkEngine (conn_state e) (fast_mode e) (send_depth e) (recv_depth e) (queue_send e) (queue_recv e)
    (last_heartbeat_rx_ms e) (peer_addr e) (my_addr e) (send_metrics e) (recv_metrics e)
    (recv_callback e) l (sent_log e) (timer_active e).
Definition set_sent_log (l : list RCMessage) (e : Engine) : Engine :=
  mkEngine (conn_state e) (fast_mode e) (send_depth e) (recv_depth e) (queue_send e) (queue_recv e)
    (last_heartbeat_rx_ms e) (peer_addr e) (my_addr e) (send_metrics e) (recv_metrics e)
    (recv_callback e) (callback_log e) l (timer_active e).
Definition set_timer_active (b : bool) (e : Engine) : Engine :=
  mkEngine (conn_state e) (fast_mode e) (send_depth e) (recv_depth e) (queue_send e) (queue_recv e)
    (last_heartbeat_rx_ms e) (peer_addr e) (my_addr e) (send_metrics e) (recv_metrics e)
    (recv_callback e) (callback_log e) (sent_log e) b.

(** *** FreeRTOS queue primitives (head of the list = oldest entry) *)

(** [xQueueSend(q, &m, 0)] on a queue of length [depth]. *)
Definition xQueueSend (depth : nat) (q : list RCMessage) (m : RCMessage)
  : bool * list RCMessage :=
  if Nat.ltb (length q) depth then (true, q ++ [m]) else (false, q).

(** [xQueueReceive(q, &out, t)]: the oldest entry, if any. *)
Definition xQueueReceive (q : list RCMessage) : option RCMessage * list RCMessage :=
  match q with
  | [] => (None, [])
  | m :: q' => (Some m, q')
  end.

(** [xQueueOverwrite(q, &m)] on a queue of length 1. *)
Definition xQueueOverwrite (q : list RCMessage) (m : RCMessage) : bool * list RCMessage :=
  (true, [m]).

(** *** [ESP32RemoteControl::onDataReceived]

    [lock_ok] is the outcome of [xSemaphoreTakeRecursive(data_lock_, 5 ms)]
    and [now] the value of [millis()]. The inbound queue is shared with the
    application task, which may dequeue between two queue calls of this
    function: [k1] entries are consumed concurrently between the failed
    [xQueueSend] and the eviction, [k2] between the eviction and the retry
    (both 0 in a sequential run). The base-class [setPeerAddr] copies the
    six sender bytes. *)
Definition onDataReceived_bookkeeping (lock_ok : bool) (now : Z) (msg : RCMessage)
  (e : Engine) : Engine :=
  if lock_ok then
    let e1 := if conn_eqb (conn_state e) CONNECTED then e
              else set_conn_state CONNECTED (set_peer_addr (firstn RC_ADDR_SIZE (from_addr msg)) e) in
    set_last_rx (u32 now) e1
  else e.

(** The reliable-mode enqueue: [xQueueSend], then on failure evict the
    oldest entry and, if that succeeded, retry once. *)
Definition reliable_enqueue (depth : nat) (k1 k2 : nat) (q : list RCMessage) (msg : RCMessage)
  : bool * list RCMessage :=
  let (ok0, q0) := xQueueSend depth q msg in
  if ok0 then (true, q0)
  else
    match xQueueReceive (skipn k1 q0) with
    | (Some _dropMsg, q1) => xQueueSend depth (skipn k2 q1) msg
    | (None, q1) => (false, q1)
    end.

Definition onDataReceived (g : Globals) (lock_ok : bool) (now : Z) (k1 k2 : nat)
  (msg : RCMessage) (e : Engine) : Engine :=
  let e1 := onDataReceived_bookkeeping lock_ok now msg e in
  if type msg =? RCMSG_TYPE_HEARTBEAT then e1
  else
    let '(ok, q, rm) :=
      if fast_mode e1 then
        let (ok, q) := xQueueOverwrite (queue_recv e1) msg in (ok, q, recv_metrics e1)
      else
        let (ok, q) := reliable_enqueue (recv_depth e1) k1 k2 (queue_recv e1) msg in
        (ok, q, if ok then recv_metrics e1 else addFailure g (recv_metrics e1)) in
    let e2 := set_queue_recv q e1 in
    if ok then
      let e3 := if recv_callback e2 then set_callback_log (callback_log e2 ++ [msg]) e2 else e2 in
      set_recv_metrics (addSuccess g rm) e3
    else set_recv_metrics (addFailure g rm) e2.

(** Sequential run: lock acquired, no concurrent consumer. *)
Definition onDataReceived_seq (g : Globals) (now : Z) (msg : RCMessage) (e : Engine) : Engine :=
  onDataReceived g true now 0 0 msg e.

(** *** Remaining engine operations *)

(** [ESP32RemoteControl::connect]. *)
Definition connect (e : Engine) : Engine :=
  set_conn_state CONNECTING (set_timer_active true e).

(** [ESP32RemoteControl::checkHeartbeat] at [millis() = now]. *)
Definition checkHeartbeat (now : Z) (e : Engine) : Engine :=
  if HEARTBEAT_TIMEOUT_MS <? u32 (now - last_heartbeat_rx_ms e) then
    if conn_eqb (conn_state e) CONNECTED then set_conn_state DISCONNECTED e else e
  else e.

(** [ESP32RemoteControl::sendMsg]. *)
Definition sendMsg (m : RCMessage) (e : Engine) : bool * Engine :=
  if fast_mode e then
    let (ok, q) := xQueueOverwrite (queue_send e) m in
    if ok then (true, set_queue_send q e) else (false, e)
  else
    let (ok, q) := xQueueSend (send_depth e) (queue_send e) m in
    if ok then (true, set_queue_send q e) else (false, e).

(** [ESP32RemoteControl::sendSysMsg]. *)
Definition sendSysMsg (msgType : Z) (e : Engine) : Engine :=
  snd (sendMsg (mkMsg msgType (my_addr e) (repeat 0 25)) e).

(** [ESP32RemoteControl::heartbeatTimerCallback]. *)
Definition heartbeatTimerCallback (now : Z) (e : Engine) : Engine :=
  checkHeartbeat now (sendSysMsg RCMSG_TYPE_HEARTBEAT e).

(** The message built by [ESP32RemoteControl::sendData]. *)
Definition sendData_msg (my : list Z) (p : RCPayload) : RCMessage :=
  setPayload (mkMsg RCMSG_TYPE_DATA (firstn RC_ADDR_SIZE my) (repeat 0 25)) p.

(** [ESP32RemoteControl::sendData]. *)
Definition sendData (p : RCPayload) (e : Engine) : bool * Engine :=
  sendMsg (sendData_msg (my_addr e) p) e.

(** [ESP32RemoteControl::recvMsg] (no message arrives during the wait). *)
Definition recvMsg (e : Engine) : option RCMessage * Engine :=
  let (r, q) := xQueueReceive (queue_recv e) in (r, set_queue_recv q e).

(** [ESP32RemoteControl::recvData]; [buf] is the caller's payload object,
    returned updated. *)
Definition recvData (buf : RCPayload) (e : Engine) : bool * RCPayload * Engine :=
  match recvMsg e with
  | (None, e') => (false, buf, e')
  | (Some msg, e') =>
      if negb (type msg =? RCMSG_TYPE_DATA) then (false, buf, e')
      else (true, getPayload (payload msg), e')
  end.

(** One iteration of [sendFromQueueLoop]: dequeue and hand the message to
    [ESP32_RC_ESPNOW::lowLevelSend], whose radio outcome is [ok]. *)
Definition drainOne (g : Globals) (ok : bool) (e : Engine) : Engine :=
  match xQueueReceive (queue_send e) with
  | (None, _) => e
  | (Some m, q) =>
      let e1 := set_sent_log (sent_log e ++ [m]) (set_queue_send q e) in
      set_send_metrics (if ok then addSuccess g (send_metrics e) else addFailure g (send_metrics e)) e1
  end.

(** [ESP32RemoteControl::resetMetrics]. *)
Definition resetMetrics (now : Z) (e : Engine) : Engine :=
  set_recv_metrics (reset now (recv_metrics e)) (set_send_metrics (reset now (send_metrics e)) e).

(** [ESP32RemoteControl::setOnRecieveMsgHandler] (registered or [nullptr]). *)
Definition setOnRecieveMsgHandler (registered : bool) (e : Engine) : Engine :=
  mkEngine (conn_state e) (fast_mode e) (send_depth e) (recv_depth e) (queue_send e) (queue_recv e)
    (last_heartbeat_rx_ms e) (peer_addr e) (my_addr e) (send_metrics e) (recv_metrics e)
    registered (callback_log e) (sent_log e) (timer_active e).

(** *** Runs of the engine *)

Inductive Op :=
| OpConnect
| OpReceive (lock_ok : bool) (now : Z) (k1 k2 : nat) (msg : RCMessage)
| OpCheckHeartbeat (now : Z)
| OpTimerTick (now : Z)
| OpSendMsg (m : RCMessage)
| OpSendData (p : RCPayload)
| OpRecvMsg
| OpRecvData (buf : RCPayload)
| OpDrainOne (ok : bool)
| OpSetHandler (registered : bool)
| OpResetMetrics (now : Z)
| OpEnableMetrics (enable : bool).

(** What an operation hands back to the application: for [recvMsg] and
    [recvData] the message taken off the inbound queue, if any. *)
Definition step (g : Globals) (op : Op) (e : Engine)
  : Globals * Engine * option RCMessage :=
  match op with
  | OpConnect => (g, connect e, None)
  | OpReceive lk now k1 k2 msg => (g, onDataReceived g lk now k1 k2 msg e, None)
  | OpCheckHeartbeat now => (g, checkHeartbeat now e, None)
  | OpTimerTick now => (g, heartbeatTimerCallback now e, None)
  | OpSendMsg m => (g, snd (sendMsg m e), None)
  | OpSendData p => (g, snd (sendData p e), None)
  | OpRecvMsg => let (r, e') := recvMsg e in (g, e', r)
  | OpRecvData buf => let (r, e') := recvMsg e in (g, snd (recvData buf e), r)
  | OpDrainOne ok => (g, drainOne g ok e, None)
  | OpSetHandler b => (g, setOnRecieveMsgHandler b e, None)
  | OpResetMetrics now => (g, resetMetrics now e, None)
  | OpEnableMetrics b => (enableGlobalMetrics b g, e, None)
  end.

(** Runs a list of operations; returns the final globals, engine and the
    messages handed to the application by [recvMsg] / [recvData]. *)
Fixpoint run (g : Globals) (ops : list Op) (e : Engine)
  : Globals * Engine * list RCMessage :=
  match ops with
  | [] => (g, e, [])
  | op :: ops' =>
      let '(g1, e1, r) := step g op e in
      let '(g2, e2, out) := run g1 ops' e1 in
      (g2, e2, match r with Some m => m :: out | None => out end)
  end.

(** ** Further model: address objects, frames and backend paths *)

(** *** [RCAddress_t] member functions (esp32_rc_common.h) *)

(** [clear()]: [size = 0; memset(data, 0, RC_MAX_ADDR_SIZE)]. *)
Definition clear (a : RCAddress) : RCAddress :=
  mkAddr (repeat 0 (Z.to_nat RC_MAX_ADDR_SIZE)) 0.

(** [setAddress(addr, addr_size)]; [None] is a null [addr]; the [memcpy]
    reads the first [addr_size] bytes of [addr]. *)
Definition setAddress (addr : option (list Z)) (sz : Z) (a : RCAddress) : RCAddress :=
  match addr with
  | Some bs =>
      if (0 <? sz) && (sz <=? RC_MAX_ADDR_SIZE) then
        let n := Z.to_nat sz in
        let d := firstn n bs ++ skipn n (addr_data a) in
        let d := if sz <? RC_MAX_ADDR_SIZE
                 then firstn n d ++ repeat 0 (Z.to_nat (RC_MAX_ADDR_SIZE - sz))
                 else d in
        mkAddr d sz
      else clear a
  | None => clear a
  end.

(** [memcmp(a, b, n) == 0]. *)
Fixpoint bytes_eqb (l1 l2 : list Z) : bool :=
  match l1, l2 with
  | [], [] => true
  | x :: l1', y :: l2' => (x =? y) && bytes_eqb l1' l2'
  | _, _ => false
  end.

Definition memcmp_eq (n : nat) (a b : list Z) : bool :=
  bytes_eqb (firstn n a) (firstn n b).

(** [operator==] and [operator!=]. *)
Definition addr_eqb (a b : RCAddress) : bool :=
  (addr_size a =? addr_size b) && memcmp_eq (Z.to_nat (addr_size a)) (addr_data a) (addr_data b).

Definition addr_neqb (a b : RCAddress) : bool := negb (addr_eqb a b).

(** *** Frames on the air *)

(** The bytes [lowLevelSend] hands to the radio:
    [reinterpret_cast<const uint8_t*>(&msg)], [sizeof(RCMessage_t)] of them. *)
Definition msg_bytes (m : RCMessage) : list Z := type m :: from_addr m ++ payload m.

(** [ESP32_RC_NRF24::parseRawData]. *)
Definition parseRawData_nrf24 (data : option (list Z)) (len : Z) : RCMessage :=
  match data with
  | None => zero_msg
  | Some bs =>
      if negb (len =? RC_MESSAGE_MAX_SIZE) then zero_msg
      else
        let msg := msg_of_bytes bs in
        if negb (type msg =? RCMSG_TYPE_DATA) && negb (type msg =? RCMSG_TYPE_HEARTBEAT)
        then zero_msg
        else msg
  end.

(** *** The backends' send retry loop *)

Definition MAX_SEND_RETRIES : nat := 3.

(** [for (int retry = 0; retry <= MAX_SEND_RETRIES; retry++)]: [attempt i]
    is the outcome of the radio call at try [i] ([esp_now_send(...) == ESP_OK]
    or [radio_.write(...)]); the loop stops at the first success. Returns the
    number of radio calls made and the final outcome ([ESP_FAIL] / [false]
    before the first call). *)
Fixpoint send_retry_loop (attempt : nat -> bool) (retry fuel : nat) : nat * bool :=
  match fuel with
  | O => (O, false)
  | S f =>
      if attempt retry then (1%nat, true)
      else let (n, ok) := send_retry_loop attempt (S retry) f in (S n, ok)
  end.

Definition retry_loop (attempt : nat -> bool) : nat * bool :=
  send_retry_loop attempt 0 (S MAX_SEND_RETRIES).

(** [static uint8_t bcast[RC_ADDR_SIZE] = RC_BROADCAST_MAC]. *)
Definition bcast : list Z := [255; 255; 255; 255; 255; 255].

(** [ESP32_RC_ESPNOW::lowLevelSend]: returns the radio calls made (target
    address and frame bytes of each) and the engine with its send metrics
    updated. *)
Definition espnow_lowLevelSend (g : Globals) (attempt : nat -> bool) (msg : RCMessage)
  (e : Engine) : list (list Z * list Z) * Engine :=
  let target := if conn_eqb (conn_state e) CONNECTED then peer_addr e else bcast in
  let (n, ok) := retry_loop attempt in
  (repeat (target, msg_bytes msg) n,
   set_send_metrics (if ok then addSuccess g (send_metrics e) else addFailure g (send_metrics e)) e).

(** [ESP32_RC_NRF24::lowLevelSend]: heartbeats are left out of the metrics.
    Returns the number of [radio_.write] calls and the engine. *)
Definition nrf24_lowLevelSend (g : Globals) (attempt : nat -> bool) (msg : RCMessage)
  (e : Engine) : nat * Engine :=
  let (n, ok) := retry_loop attempt in
  if negb (type msg =? RCMSG_TYPE_HEARTBEAT) then
    (n, set_send_metrics (if ok then addSuccess g (send_metrics e) else addFailure g (send_metrics e)) e)
  else (n, e).

(** *** ESP-NOW peer registration *)

(** [ESP32_RC_ESPNOW::setPeerAddr] with the driver's peer list [tbl];
    [add_ok] is [esp_now_add_peer(...) == ESP_OK]; the base-class
    [setPeerAddr] copies the six bytes into [peer_addr_]. *)
Definition espnow_setPeerAddr (add_ok : bool) (peer : option (list Z))
  (tbl : list (list Z)) (e : Engine) : list (list Z) * Engine :=
  match peer with
  | None => (tbl, e)
  | Some p =>
      let mac := firstn RC_ADDR_SIZE p in
      if bytes_eqb mac (repeat 0 RC_ADDR_SIZE) then (tbl, e)
      else if existsb (bytes_eqb mac) tbl then (tbl, set_peer_addr mac e)
      else if add_ok then (mac :: tbl, set_peer_addr mac e)
      else (tbl, e)
  end.

(** [ESP32_RC_ESPNOW::unsetPeerAddr]; [del_ok] is
    [esp_now_del_peer(...) == ESP_OK]; the base class zeroes [peer_addr_]. *)
Definition espnow_unsetPeerAddr (del_ok : bool) (tbl : list (list Z)) (e : Engine)
  : list (list Z) * Engine :=
  let tbl' :=
    if existsb (bytes_eqb (peer_addr e)) tbl then
      if del_ok then filter (fun x => negb (bytes_eqb (peer_addr e) x)) tbl else tbl
    else tbl in
  (tbl', set_peer_addr (repeat 0 RC_ADDR_SIZE) e).

(** *** NRF24 addresses *)

(** [ESP32_RC_NRF24::macToNrfAddress]. *)
Definition macToNrfAddress (mac : list Z) : list Z :=
  [Z.lxor (nth 0 mac 0) (nth 5 mac 0); nth 1 mac 0; nth 2 mac 0; nth 3 mac 0; nth 4 mac 0].

(** [ESP32_RC_NRF24::nrfToMacAddress]. *)
Definition nrfToMacAddress (nrf : list Z) : list Z :=
  [210; nth 1 nrf 0; nth 2 nrf 0; nth 3 nrf 0; nth 4 nrf 0; Z.lxor (nth 0 nrf 0) 210].

(** [ESP32_RC_NRF24::generateMyNrfAddress] for [chipId = ESP.getEfuseMac()]:
    returns [my_addr_] and [nrf_my_addr_]. *)
Definition generateMyNrfAddress (chipId : Z) : list Z * list Z :=
  let my := [210; Z.land (Z.shiftr chipId 0) 255; Z.land (Z.shiftr chipId 8) 255;
             Z.land (Z.shiftr chipId 16) 255; Z.land (Z.shiftr chipId 24) 255;
             Z.land (Z.shiftr chipId 32) 255] in
  (my, macToNrfAddress my).

(** [my_addr_] at the end of [ESP32_RC_NRF24::init]: [generateMyNrfAddress()]
    then [nrfToMacAddress(nrf_my_addr_, my_addr_)]. *)
Definition nrf24_init_my_addr (chipId : Z) : list Z :=
  nrfToMacAddress (snd (generateMyNrfAddress chipId)).

(** *** NRF24 receive path *)

(** The NRF24 backend's own state: [handshake_completed_], [pipeType_]
    (-1 before [init], 0 broadcast, 1 peer), [nrf_peer_addr_]; [peer_addr_]
    is the engine's. *)
Record Nrf24 := mkNrf24 {
  handshake_completed : bool;
  pipeType : Z;
  nrf_peer_addr : list Z;
  nrf_engine : Engine
}.

(** [ESP32_RC_NRF24::setPeerAddr]. *)
Definition nrf24_setPeerAddr (peer : list Z) (s : Nrf24) : Nrf24 :=
  let mac := firstn RC_ADDR_SIZE peer in
  if bytes_eqb mac (repeat 0 RC_ADDR_SIZE) then s
  else mkNrf24 (handshake_completed s) (pipeType s) (macToNrfAddress mac)
         (set_peer_addr mac (nrf_engine s)).

(** [ESP32_RC_NRF24::switchToPeerPipe]. *)
Definition switchToPeerPipe (s : Nrf24) : Nrf24 :=
  if pipeType s =? 1 then s
  else mkNrf24 (handshake_completed s) 1 (nrf_peer_addr s) (nrf_engine s).

(** [ESP32_RC_NRF24::handleHandshakeMessage]. *)
Definition handleHandshakeMessage (msg : RCMessage) (s : Nrf24) : Nrf24 :=
  if type msg =? RCMSG_TYPE_HEARTBEAT then
    let s1 := nrf24_setPeerAddr (from_addr msg) s in
    switchToPeerPipe (mkNrf24 true (pipeType s1) (nrf_peer_addr s1) (nrf_engine s1))
  else s.

(** One iteration of [ESP32_RC_NRF24::receiveLoop] with a payload available:
    [len] is [getDynamicPayloadSize()] and [frame] the bytes the radio holds.
    Returns the backend state and the message passed to [onDataReceived],
    if any (the engine side of that call is [onDataReceived]). *)
Definition nrf24_receive_frame (len : Z) (frame : list Z) (s : Nrf24)
  : Nrf24 * option RCMessage :=
  if (len =? 0) || (32 <? len) then (s, None)
  else
    let buf := firstn (Z.to_nat len) frame ++ repeat 0 (Z.to_nat (32 - len)) in
    if negb (len =? RC_MESSAGE_MAX_SIZE) then (s, None)
    else
      let parsedMsg := parseRawData_nrf24 (Some buf) len in
      if memcmp_eq RC_ADDR_SIZE (from_addr parsedMsg) (my_addr (nrf_engine s)) then (s, None)
      else if type parsedMsg =? RCMSG_TYPE_HEARTBEAT then
        let s1 := if handshake_completed s then s else handleHandshakeMessage parsedMsg s in
        (s1, Some parsedMsg)
      else if type parsedMsg =? RCMSG_TYPE_DATA then
        (s, if handshake_completed s then Some parsedMsg else None)
      else (s, None).

(** [ESP32_RC_NRF24::switchToBroadcastPipe]. *)
Definition switchToBroadcastPipe (s : Nrf24) : Nrf24 :=
  if pipeType s =? 0 then s
  else mkNrf24 (handshake_completed s) 0 (nrf_peer_addr s) (nrf_engine s).

(** [ESP32_RC_NRF24::checkHeartbeat] at [millis() = now]: the base-class
    check, then on DISCONNECTED the handshake is reset and the broadcast
    pipe selected. *)
Definition nrf24_checkHeartbeat (now : Z) (s : Nrf24) : Nrf24 :=
  let s1 := mkNrf24 (handshake_completed s) (pipeType s) (nrf_peer_addr s)
              (checkHeartbeat now (nrf_engine s)) in
  if conn_eqb (conn_state (nrf_engine s1)) DISCONNECTED then
    switchToBroadcastPipe (mkNrf24 false (pipeType s1) (nrf_peer_addr s1) (nrf_engine s1))
  else s1.

(** *** Sequences of engine calls *)

(** Consecutive [sendMsg] calls; returns their results. *)
Fixpoint sendMsgs (ms : list RCMessage) (e : Engine) : list bool * Engine :=
  match ms with
  | [] => ([], e)
  | m :: ms' =>
      let (ok, e1) := sendMsg m e in
      let (oks, e2) := sendMsgs ms' e1 in (ok :: oks, e2)
  end.

(** The inner [while (xQueueReceive(queue_send_, &msg, 0) == pdTRUE)] loop
    of [sendFromQueueLoop], [n] iterations, radio outcomes [oks]. *)
Fixpoint drain_loop (n : nat) (g : Globals) (oks : list bool) (e : Engine) : Engine :=
  match n with
  | O => e
  | S n' => drain_loop n' g (tl oks) (drainOne g (hd false oks) e)
  end.

Definition sendFromQueueLoop_burst (g : Globals) (oks : list bool) (e : Engine) : Engine :=
  drain_loop (S (length (queue_send e))) g oks e.

(** Consecutive [onDataReceived] calls of a sequential run at time [now]. *)
Fixpoint deliver_all (g : Globals) (now : Z) (ms : list RCMessage) (e : Engine) : Engine :=
  match ms with
  | [] => e
  | m :: ms' => deliver_all g now ms' (onDataReceived_seq g now m e)
  end.

(** *** Metrics histories *)





(** *** Predicates and sample inputs used by the properties below *)

Definition addr_sample : list Z := [1; 2; 3; 4; 5; 6].
Definition addr_bytes1 : list Z := [1; 2; 3; 4; 5; 6; 7].
Definition addr_bytes2 : list Z := [1; 2; 3; 4; 5; 6; 9].
Definition msg_wf (m : RCMessage) : Prop :=
  length (from_addr m) = RC_ADDR_SIZE /\ length (payload m) = 25%nat.
Definition frame_sample : RCMessage := mkMsg RCMSG_TYPE_HEARTBEAT [210; 1; 2; 3; 4; 5] (repeat 0 25).
Definition peer_registered (tbl : list (list Z)) (e : Engine) : Prop :=
  peer_addr e = repeat 0 RC_ADDR_SIZE \/ In (peer_addr e) tbl.
Definition out_msg1 : RCMessage := mkMsg RCMSG_TYPE_DATA [210; 0; 0; 0; 0; 1] (repeat 1 25).
Definition out_msg2 : RCMessage := mkMsg RCMSG_TYPE_DATA [210; 0; 0; 0; 0; 1] (repeat 2 25).
Definition lastn {A} (d : nat) (l : list A) : list A := skipn (length l - d) l.
Definition mac_sample : list Z := [210; 17; 34; 51; 68; 85].
Definition chip_sample : Z := 1250999896491.
Definition nrf_sample : Nrf24 := mkNrf24 false 0 [0; 0; 0; 0; 0] (Engine_init false 0).

(** * Properties *)

Definition not_heartbeat (m : RCMessage) : Prop := type m <> RCMSG_TYPE_HEARTBEAT.

(** ** Queue lemmas *)

Lemma Forall_skipn_gen {A} (P : A -> Prop) (k : nat) (l : list A) :
  Forall P l -> Forall P (skipn k l).
Proof.
  revert l; induction k as [|k IH]; intros l H; [exact H|].
  destruct l as [|x l]; [constructor|]. inversion H; subst. simpl. auto.
Qed.

Lemma Forall_app_intro {A} (P : A -> Prop) (l1 l2 : list A) :
  Forall P l1 -> Forall P l2 -> Forall P (l1 ++ l2).
Proof. intros H1 H2. apply Forall_app; split; assumption. Qed.

Lemma xQueueSend_Forall (P : RCMessage -> Prop) d q m :
  Forall P q -> P m -> Forall P (snd (xQueueSend d q m)).
Proof.
  intros Hq Hm. unfold xQueueSend. destruct (Nat.ltb _ _); simpl; auto.
  apply Forall_app_intro; auto.
Qed.

Lemma reliable_enqueue_Forall (P : RCMessage -> Prop) d k1 k2 q m :
  Forall P q -> P m -> Forall P (snd (reliable_enqueue d k1 k2 q m)).
Proof.
  intros Hq Hm. unfold reliable_enqueue.
  pose proof (xQueueSend_Forall P d q m Hq Hm) as H0.
  destruct (xQueueSend d q m) as [ok0 q0] eqn:E0; simpl in H0.
  destruct ok0; [exact H0|].
  pose proof (Forall_skipn_gen P k1 q0 H0) as H1.
  destruct (skipn k1 q0) as [|x q1]; simpl; [constructor|].
  inversion H1; subst. apply xQueueSend_Forall; auto. apply Forall_skipn_gen; auto.
Qed.

(** [onDataReceived] keeps a property of every inbound-queue entry and of
    every callback argument, provided the received message has it. *)
Lemma onDataReceived_Forall (P : RCMessage -> Prop) g lk now k1 k2 msg e :
  Forall P (queue_recv e) -> Forall P (callback_log e) -> P msg ->
  Forall P (queue_recv (onDataReceived g lk now k1 k2 msg e)) /\
  Forall P (callback_log (onDataReceived g lk now k1 k2 msg e)).
Proof.
  intros Hq Hc Hm. unfold onDataReceived.
  assert (Hq1 : Forall P (queue_recv (onDataReceived_bookkeeping lk now msg e)) /\
                Forall P (callback_log (onDataReceived_bookkeeping lk now msg e))).
  { unfold onDataReceived_bookkeeping. destruct lk; [|auto].
    destruct (conn_eqb _ _); simpl; auto. }
  revert Hq1. generalize (onDataReceived_bookkeeping lk now msg e) as e1.
  intros e1 [Hq1 Hc1].
  destruct (type msg =? RCMSG_TYPE_HEARTBEAT); [auto|].
  destruct (fast_mode e1).
  - simpl. destruct (recv_callback e1); simpl; split; auto.
    apply Forall_app_intro; auto.
  - pose proof (reliable_enqueue_Forall P (recv_depth e1) k1 k2 (queue_recv e1) msg Hq1 Hm) as HR.
    destruct (reliable_enqueue _ _ _ _ _) as [ok q] eqn:ER; simpl in HR |- *.
    destruct ok; simpl; [|auto].
    destruct (recv_callback e1); simpl; split; auto. apply Forall_app_intro; auto.
Qed.

(** The heartbeat branch of [onDataReceived] touches neither the inbound
    queue, nor the callback, nor the receive metrics. *)
Lemma onDataReceived_heartbeat_stops g lk now k1 k2 msg e :
  type msg = RCMSG_TYPE_HEARTBEAT ->
  queue_recv (onDataReceived g lk now k1 k2 msg e) = queue_recv e /\
  callback_log (onDataReceived g lk now k1 k2 msg e) = callback_log e /\
  recv_metrics (onDataReceived g lk now k1 k2 msg e) = recv_metrics e.
Proof.
  intros Ht. unfold onDataReceived. rewrite Ht, Z.eqb_refl.
  unfold onDataReceived_bookkeeping. destruct lk; [|auto].
  destruct (conn_eqb _ _); simpl; auto.
Qed.

Lemma sendMsg_recv_side m e :
  queue_recv (snd (sendMsg m e)) = queue_recv e /\
  callback_log (snd (sendMsg m e)) = callback_log e.
Proof.
  unfold sendMsg, xQueueOverwrite, xQueueSend.
  destruct (fast_mode e); [simpl; auto|].
  destruct (Nat.ltb _ _); simpl; auto.
Qed.

Lemma drainOne_recv_side g ok e :
  queue_recv (drainOne g ok e) = queue_recv e /\
  callback_log (drainOne g ok e) = callback_log e.
Proof. unfold drainOne. destruct (queue_send e); simpl; auto. Qed.

Lemma recvMsg_Forall (P : RCMessage -> Prop) e :
  Forall P (queue_recv e) ->
  Forall P (queue_recv (snd (recvMsg e))) /\
  callback_log (snd (recvMsg e)) = callback_log e /\
  (forall m, fst (recvMsg e) = Some m -> P m).
Proof.
  intros H. unfold recvMsg. destruct (queue_recv e) as [|x q] eqn:E; simpl.
  - repeat split; auto. discriminate.
  - inversion H; subst. repeat split; auto. intros m Hm; inversion Hm; subst; auto.
Qed.

Lemma recvData_recv_side buf e :
  snd (recvData buf e) = snd (recvMsg e).
Proof.
  unfold recvData. destruct (recvMsg e) as [[m|] e'] eqn:E; simpl; auto.
  destruct (negb _); reflexivity.
Qed.

Lemma step_no_heartbeat g op e :
  Forall not_heartbeat (queue_recv e) -> Forall not_heartbeat (callback_log e) ->
  let '(g', e', r) := step g op e in
  Forall not_heartbeat (queue_recv e') /\ Forall not_heartbeat (callback_log e') /\
  (forall m, r = Some m -> not_heartbeat m).
Proof.
  intros Hq Hc.
  assert (Hnone : forall m : RCMessage, @None RCMessage = Some m -> not_heartbeat m)
    by discriminate.
  destruct op as [| lk now k1 k2 msg | now | now | m | p | | buf | ok | b | now | b]; simpl.
  - auto.
  - split; [|split; [|exact Hnone]].
    + destruct (Z.eq_dec (type msg) RCMSG_TYPE_HEARTBEAT) as [Ht|Ht].
      * destruct (onDataReceived_heartbeat_stops g lk now k1 k2 msg e Ht) as [-> _]; auto.
      * apply (onDataReceived_Forall not_heartbeat); auto.
    + destruct (Z.eq_dec (type msg) RCMSG_TYPE_HEARTBEAT) as [Ht|Ht].
      * destruct (onDataReceived_heartbeat_stops g lk now k1 k2 msg e Ht) as [_ [-> _]]; auto.
      * apply (onDataReceived_Forall not_heartbeat); auto.
  - unfold checkHeartbeat. destruct (_ <? _); [destruct (conn_eqb _ _)|]; simpl; auto.
  - unfold heartbeatTimerCallback, sendSysMsg, checkHeartbeat.
    destruct (sendMsg_recv_side (mkMsg RCMSG_TYPE_HEARTBEAT (my_addr e) (repeat 0 25)) e)
      as [E1 E2].
    destruct (_ <? _); [destruct (conn_eqb _ _)|];
      cbn [queue_recv callback_log set_conn_state]; rewrite ?E1, ?E2; auto.
  - destruct (sendMsg_recv_side m e) as [-> ->]; auto.
  - unfold sendData. destruct (sendMsg_recv_side (sendData_msg (my_addr e) p) e) as [-> ->]; auto.
  - destruct (recvMsg_Forall not_heartbeat e Hq) as [H1 [H2 H3]].
    destruct (recvMsg e) as [r e'] eqn:E; simpl in *. rewrite H2. auto.
  - destruct (recvMsg_Forall not_heartbeat e Hq) as [H1 [H2 H3]].
    rewrite recvData_recv_side.
    destruct (recvMsg e) as [r e'] eqn:E; simpl in *. rewrite H2. auto.
  - destruct (drainOne_recv_side g ok e) as [-> ->]; auto.
  - auto.
  - auto.
  - auto.
Qed.

Lemma run_no_heartbeat g ops e :
  Forall not_heartbeat (queue_recv e) -> Forall not_heartbeat (callback_log e) ->
  let '(g', e', out) := run g ops e in
  Forall not_heartbeat out /\ Forall not_heartbeat (queue_recv e') /\
  Forall not_heartbeat (callback_log e').
Proof.
  revert g e; induction ops as [|op ops IH]; intros g e Hq Hc; simpl.
  - auto.
  - pose proof (step_no_heartbeat g op e Hq Hc) as Hs.
    destruct (step g op e) as [[g1 e1] r].
    destruct Hs as [Hq1 [Hc1 Hr]].
    specialize (IH g1 e1 Hq1 Hc1).
    destruct (run g1 ops e1) as [[g2 e2] out].
    destruct IH as [Ho [Hq2 Hc2]]. split; [|auto].
    destruct r as [m|]; auto.
Qed.

(** C5: a heartbeat handed to [onDataReceived] is never queued, never
    passed to the receive callback and not counted; consequently, over any
    run of engine operations from construction, no message handed to the
    application by [recvMsg] / [recvData], and no callback argument, is a
    heartbeat. *)
Theorem heartbeat_never_surfaced :
  (forall g lk now k1 k2 msg e, type msg = RCMSG_TYPE_HEARTBEAT ->
     queue_recv (onDataReceived g lk now k1 k2 msg e) = queue_recv e /\
     callback_log (onDataReceived g lk now k1 k2 msg e) = callback_log e /\
     recv_metrics (onDataReceived g lk now k1 k2 msg e) = recv_metrics e) /\
  (forall g ops fast now,
     let '(_, e', out) := run g ops (Engine_init fast now) in
     Forall not_heartbeat out /\ Forall not_heartbeat (queue_recv e') /\
     Forall not_heartbeat (callback_log e')).
Proof.
  split.
  - intros. apply onDataReceived_heartbeat_stops; assumption.
  - intros g ops fast now. apply run_no_heartbeat; simpl; constructor.
Qed.

(** ** Inbound overflow in reliable mode *)

Lemma bookkeeping_queue_recv lk now msg e :
  queue_recv (onDataReceived_bookkeeping lk now msg e) = queue_recv e /\
  fast_mode (onDataReceived_bookkeeping lk now msg e) = fast_mode e /\
  recv_depth (onDataReceived_bookkeeping lk now msg e) = recv_depth e /\
  recv_callback (onDataReceived_bookkeeping lk now msg e) = recv_callback e /\
  callback_log (onDataReceived_bookkeeping lk now msg e) = callback_log e /\
  recv_metrics (onDataReceived_bookkeeping lk now msg e) = recv_metrics e.
Proof.
  unfold onDataReceived_bookkeeping. destruct lk; [|auto 10].
  destruct (conn_eqb _ _); simpl; auto 10.
Qed.

Lemma length_skipn_le {A} (k : nat) (l : list A) : (length (skipn k l) <= length l)%nat.
Proof. rewrite length_skipn. lia. Qed.

(** With a full queue, the first [xQueueSend] fails; when the eviction then
    finds an entry, the retry has room and appends the new message. *)
Lemma reliable_enqueue_full d k1 k2 q msg x q1 :
  length q = d -> skipn k1 q = x :: q1 ->
  reliable_enqueue d k1 k2 q msg = (true, skipn k2 q1 ++ [msg]).
Proof.
  intros Hl Hs. unfold reliable_enqueue, xQueueSend.
  rewrite Hl, Nat.ltb_irrefl, Hs. simpl.
  assert (Hlt : (length (skipn k2 q1) < d)%nat).
  { pose proof (length_skipn_le k2 q1). pose proof (length_skipn_le k1 q) as H2.
    rewrite Hs in H2. simpl in H2. lia. }
  apply Nat.ltb_lt in Hlt. rewrite Hlt. reflexivity.
Qed.

(** C4: in reliable mode, a DATA message arriving while the inbound queue is
    full makes [onDataReceived] evict the oldest entry it finds; whenever
    that eviction succeeds the new message is appended as the newest entry,
    the callback sees it and a receive-success is recorded. [k1], [k2] are
    entries consumed concurrently by the application ([0] when sequential:
    the queue becomes [tl q ++ [msg]]). *)
Theorem reliable_overflow_keeps_newest g lk now k1 k2 msg e x q1 :
  fast_mode e = false ->
  type msg = RCMSG_TYPE_DATA ->
  length (queue_recv e) = recv_depth e ->
  skipn k1 (queue_recv e) = x :: q1 ->
  let e' := onDataReceived g lk now k1 k2 msg e in
  queue_recv e' = skipn k2 q1 ++ [msg] /\
  callback_log e' = (if recv_callback e then callback_log e ++ [msg] else callback_log e) /\
  recv_metrics e' = addSuccess g (recv_metrics e).
Proof.
  intros Hf Ht Hl Hs. unfold onDataReceived.
  destruct (bookkeeping_queue_recv lk now msg e) as [Q [F [D [C [L M]]]]].
  revert Q F D C L M. generalize (onDataReceived_bookkeeping lk now msg e) as e1.
  intros e1 Q F D C L M.
  rewrite Ht. change (RCMSG_TYPE_DATA =? RCMSG_TYPE_HEARTBEAT) with false. cbv iota.
  rewrite F, Hf, D, Q.
  rewrite (reliable_enqueue_full (recv_depth e) k1 k2 (queue_recv e) msg x q1 Hl Hs).
  cbn [set_queue_recv recv_callback]. rewrite C.
  destruct (recv_callback e); simpl; rewrite ?L, ?M; auto.
Qed.

(** ** Double failure count on a lost inbound message *)

Definition msgA : RCMessage := mkMsg RCMSG_TYPE_DATA [1; 2; 3; 4; 5; 6] (repeat 7 25).
Definition msgB : RCMessage := mkMsg RCMSG_TYPE_DATA [1; 2; 3; 4; 5; 6] (repeat 9 25).
Definition globals_on : Globals := mkGlobals true true.

(** Reliable engine, inbound depth 1, holding [msgA], connected, metrics
    counters at 0, no callback. *)
Definition engine_full1 : Engine :=
  mkEngine CONNECTED false 1 1 [] [msgA] 0 [1; 2; 3; 4; 5; 6] [9; 9; 9; 9; 9; 9]
    (Metrics_init 0) (Metrics_init 0) true [] [] true.

(** C9 (failing input): [msgB] arrives while the depth-1 queue holds [msgA];
    the first [xQueueSend] fails, the application's [recvMsg] takes [msgA]
    before the eviction ([k1 = 1]), so the eviction finds nothing and no
    retry happens. [onDataReceived] then records two receive failures for
    this one message. *)
Theorem recv_lost_counts_two_failures :
  let e' := onDataReceived globals_on true 50 1 0 msgB engine_full1 in
  failed (recv_metrics e') = 2 /\ total (recv_metrics e') = 2 /\
  callback_log e' = [] /\ queue_recv e' = [].
Proof. vm_compute. repeat split. Qed.

(** ** Payload envelope round trip *)

Definition is_byte (x : Z) : Prop := 0 <= x < 256.
Definition is_word32 (x : Z) : Prop := 0 <= x < 2 ^ 32.

(** A well-formed [RCPayload_t] value: byte fields hold bytes and float
    fields hold 32-bit patterns. *)
Definition payload_wf (p : RCPayload) : Prop :=
  is_byte (id1 p) /\ is_byte (id2 p) /\ is_byte (id3 p) /\ is_byte (id4 p) /\
  is_word32 (value1 p) /\ is_word32 (value2 p) /\ is_word32 (value3 p) /\
  is_word32 (value4 p) /\ is_word32 (value5 p) /\ is_byte (flags p).

Lemma le32_roundtrip w :
  is_word32 w ->
  le32_dec (w mod 256) ((w / 2 ^ 8) mod 256) ((w / 2 ^ 16) mod 256) ((w / 2 ^ 24) mod 256) = w.
Proof.
  unfold is_word32, le32_dec. intros H.
  change (2 ^ 32) with 4294967296 in H. change (2 ^ 8) with 256.
  change (2 ^ 16) with 65536. change (2 ^ 24) with 16777216.
  Z.div_mod_to_equations. lia.
Qed.

Lemma getPayload_payload_bytes p :
  payload_wf p -> getPayload (payload_bytes p) = p.
Proof.
  destruct p as [a b c d v1 v2 v3 v4 v5 f].
  unfold payload_wf; simpl. intros (_ & _ & _ & _ & H1 & H2 & H3 & H4 & H5 & _).
  unfold getPayload, payload_bytes, le32. simpl.
  rewrite !le32_roundtrip by assumption. reflexivity.
Qed.

Lemma payload_bytes_length p : length (payload_bytes p) = 25%nat.
Proof. reflexivity. Qed.

(** C6: the DATA message built by [sendData] carries exactly the bytes of
    the payload in its 25-byte payload field, and [recvData] on that
    message, taken off the inbound queue, writes back the same payload: all
    id bytes, all five float bit patterns and the flags byte. *)
Theorem sendData_recvData_roundtrip (my : list Z) (p : RCPayload) :
  payload_wf p ->
  type (sendData_msg my p) = RCMSG_TYPE_DATA /\
  payload (sendData_msg my p) = payload_bytes p /\
  length (payload (sendData_msg my p)) = 25%nat /\
  (forall buf e rest, queue_recv e = sendData_msg my p :: rest ->
     recvData buf e = (true, p, set_queue_recv rest e)).
Proof.
  intros Hwf. split; [reflexivity|]. split; [reflexivity|]. split; [reflexivity|].
  intros buf e rest Hq. unfold recvData, recvMsg. rewrite Hq. simpl.
  rewrite getPayload_payload_bytes by exact Hwf. reflexivity.
Qed.

(** [sendData] puts that message on the outbound queue when there is room
    (reliable mode) or always (fast mode). *)
Lemma sendData_enqueues p e :
  (fast_mode e = true \/ (length (queue_send e) < send_depth e)%nat) ->
  exists q, sendData p e = (true, set_queue_send q e) /\
            In (sendData_msg (my_addr e) p) q.
Proof.
  intros H. unfold sendData, sendMsg, xQueueOverwrite, xQueueSend.
  destruct (fast_mode e) eqn:F.
  - eexists; split; [reflexivity|]. simpl; auto.
  - destruct H as [H|H]; [discriminate|]. apply Nat.ltb_lt in H. rewrite H.
    eexists; split; [reflexivity|]. apply in_or_app. simpl; auto.
Qed.

Definition payload_sample : RCPayload :=
  mkPayload 1 2 250 255 1078530011 3212836864 0 2143289344 4294967295 128.

(** Witness for C6 at a concrete payload (pi, -1.0, 0.0, NaN, all-ones). *)
Lemma sendData_recvData_roundtrip_witness :
  payload_wf payload_sample /\
  recvData (mkPayload 0 0 0 0 0 0 0 0 0 0)
    (set_queue_recv [sendData_msg [9; 9; 9; 9; 9; 9] payload_sample] (Engine_init false 0))
  = (true, payload_sample, set_queue_recv [] (set_queue_recv
       [sendData_msg [9; 9; 9; 9; 9; 9] payload_sample] (Engine_init false 0))).
Proof.
  assert (Hwf : payload_wf payload_sample)
    by (unfold payload_wf, is_byte, is_word32; simpl; lia).
  split; [exact Hwf|].
  apply (sendData_recvData_roundtrip [9; 9; 9; 9; 9; 9] payload_sample Hwf).
  reflexivity.
Defined.

(** ** recvData on a non-DATA entry *)

(** C10: when the entry [recvData] takes off the inbound queue is not a DATA
    message, [recvData] returns [false], the entry is gone from the queue and
    the caller's payload buffer is returned unchanged. *)
Theorem recvData_consumes_non_data buf e m rest :
  queue_recv e = m :: rest ->
  type m <> RCMSG_TYPE_DATA ->
  recvData buf e = (false, buf, set_queue_recv rest e).
Proof.
  intros Hq Ht. unfold recvData, recvMsg. rewrite Hq. simpl.
  apply Z.eqb_neq in Ht. rewrite Ht. reflexivity.
Qed.

(** The default branch of [onDataReceived] enqueues any non-heartbeat type
    (e.g. a backend system type) when the reliable queue has room. *)
Lemma onDataReceived_enqueues_system_type g now msg e :
  fast_mode e = false -> type msg <> RCMSG_TYPE_HEARTBEAT ->
  (length (queue_recv e) < recv_depth e)%nat ->
  queue_recv (onDataReceived_seq g now msg e) = queue_recv e ++ [msg].
Proof.
  intros Hf Ht Hl. unfold onDataReceived_seq, onDataReceived.
  destruct (bookkeeping_queue_recv true now msg e) as [Q [F [D _]]].
  revert Q F D. generalize (onDataReceived_bookkeeping true now msg e) as e1.
  intros e1 Q F D. apply Z.eqb_neq in Ht. rewrite Ht, F, Hf, D, Q.
  unfold reliable_enqueue, xQueueSend. apply Nat.ltb_lt in Hl. rewrite Hl.
  simpl. destruct (recv_callback e1); reflexivity.
Qed.

(** A WiFi-style system message (type 1, neither DATA nor HEARTBEAT). *)
Definition msgSys : RCMessage := mkMsg 1 [1; 2; 3; 4; 5; 6] (repeat 0 25).

(** The engine after a system message and then a DATA message arrived. *)
Definition engine_sys_then_data : Engine :=
  onDataReceived_seq globals_on 20 msgA (onDataReceived_seq globals_on 10 msgSys
    (connect (Engine_init false 0))).

(** Witness for C10: with [msgSys] queued ahead of the DATA message
    [msgA], one [recvData] call returns [false], leaves the buffer as it
    was and removes [msgSys]; [msgA] is still waiting. *)
Lemma recvData_consumes_non_data_witness :
  queue_recv engine_sys_then_data = [msgSys; msgA] /\
  recvData payload_sample engine_sys_then_data
  = (false, payload_sample, set_queue_recv [msgA] engine_sys_then_data).
Proof.
  assert (Hq : queue_recv engine_sys_then_data = [msgSys; msgA]) by reflexivity.
  split; [exact Hq|].
  apply (recvData_consumes_non_data payload_sample engine_sys_then_data msgSys [msgA] Hq).
  simpl. discriminate.
Defined.

(** ** Malformed frames (ESP-NOW receive path) *)

(** [parseRawData] returns the all-zero message on each validation failure. *)
Lemma parseRawData_espnow_invalid data len :
  (data = None \/ len <> RC_MESSAGE_MAX_SIZE \/
   (exists bs, data = Some bs /\ let t := type (msg_of_bytes bs) in
       t <> RCMSG_TYPE_DATA /\ t <> RCMSG_TYPE_HEARTBEAT)) ->
  parseRawData_espnow data len = zero_msg.
Proof.
  intros [H | [H | (bs & -> & H1 & H2)]].
  - subst. reflexivity.
  - destruct data as [bs|]; [|reflexivity]. simpl.
    apply Z.eqb_neq in H. rewrite H. reflexivity.
  - unfold parseRawData_espnow.
    destruct (len =? RC_MESSAGE_MAX_SIZE) eqn:E; cbn [negb]; [|reflexivity].
    apply Z.eqb_eq in E. subst len.
    change (RC_MESSAGE_MAX_SIZE <? RC_MESSAGE_MAX_SIZE) with false. cbv zeta iota.
    apply Z.eqb_neq in H1, H2. rewrite H1, H2. reflexivity.
Qed.

Definition mac_peer : list Z := [36; 111; 40; 1; 2; 3].
Definition frame10 : list Z := [0; 1; 2; 3; 4; 5; 6; 7; 8; 9].

(** A reliable-mode engine after [connect()], with a receive callback. *)
Definition engine_connecting_cb : Engine :=
  setOnRecieveMsgHandler true (connect (Engine_init false 0)).

(** C1 (failing input): an undersized 10-byte ESP-NOW frame. [parseRawData]
    does return the zeroed sentinel, but its type is 0 = DATA, so the
    message [onDataRecvStatic] forwards (sentinel with the sender MAC) is
    handled by [onDataReceived] as DATA: the state becomes [CONNECTED], the
    message is queued, the callback runs and a receive-success is counted. *)
Theorem malformed_frame_not_discarded :
  parseRawData_espnow (Some frame10) 10 = zero_msg /\
  type zero_msg = RCMSG_TYPE_DATA /\
  let m := espnow_rx_msg mac_peer (Some frame10) 10 in
  let e' := onDataReceived_seq globals_on 5 m engine_connecting_cb in
  conn_state e' = CONNECTED /\ queue_recv e' = [m] /\ callback_log e' = [m] /\
  successful (recv_metrics e') = 1 /\ recvData payload_sample e' = (true, getPayload (repeat 0 25), set_queue_recv [] e').
Proof. vm_compute. repeat split. Qed.

(** ** The global metrics switch *)

(** [enableGlobalMetrics] never changes the flag the counters read. *)
Lemma enableGlobalMetrics_keeps_counter_flag b g :
  RC_METRICS_ENABLED (enableGlobalMetrics b g) = RC_METRICS_ENABLED g.
Proof. reflexivity. Qed.

(** C2 (failing input): with both globals initially [true], after
    [enableGlobalMetrics(false)] the switch reads off, yet [addSuccess] and
    [addFailure] still count. *)
Theorem metrics_switch_off_still_counts :
  let g := enableGlobalMetrics false (mkGlobals true true) in
  rc_metrics_enabled g = false /\
  (successful (addSuccess g (Metrics_init 0)), total (addSuccess g (Metrics_init 0))) = (1, 1) /\
  (failed (addFailure g (Metrics_init 0)), total (addFailure g (Metrics_init 0))) = (1, 1).
Proof. vm_compute. repeat split. Qed.

(** ** Connection state transitions *)

(** C3 (counterexample): [connect()] moves a CONNECTED engine to
    CONNECTING, and a received message moves an ERROR engine to CONNECTED. *)
Lemma conn_state_counterexample :
  conn_state (connect (set_conn_state CONNECTED (Engine_init false 0))) = CONNECTING /\
  conn_state (onDataReceived_seq globals_on 5 msgA (set_conn_state ERROR (Engine_init false 0)))
    = CONNECTED.
Proof. split; reflexivity. Qed.

(** The state each base-engine operation leaves behind. *)
Definition next_conn_state (op : Op) (e : Engine) : RCConnectionState :=
  match op with
  | OpConnect => CONNECTING
  | OpReceive lk _ _ _ _ => if lk then CONNECTED else conn_state e
  | OpCheckHeartbeat now | OpTimerTick now =>
      if (HEARTBEAT_TIMEOUT_MS <? u32 (now - last_heartbeat_rx_ms e))
         && conn_eqb (conn_state e) CONNECTED
      then DISCONNECTED else conn_state e
  | _ => conn_state e
  end.

Lemma onDataReceived_conn_state g lk now k1 k2 msg e :
  conn_state (onDataReceived g lk now k1 k2 msg e) =
  if lk then CONNECTED else conn_state e.
Proof.
  assert (H : conn_state (onDataReceived_bookkeeping lk now msg e) =
              if lk then CONNECTED else conn_state e).
  { unfold onDataReceived_bookkeeping. destruct lk; [|reflexivity].
    destruct (conn_eqb (conn_state e) CONNECTED) eqn:E; simpl; [|reflexivity].
    destruct (conn_state e); try discriminate; reflexivity. }
  unfold onDataReceived. rewrite <- H.
  generalize (onDataReceived_bookkeeping lk now msg e) as e1. intros e1.
  destruct (type msg =? RCMSG_TYPE_HEARTBEAT); [reflexivity|].
  destruct (fast_mode e1).
  - simpl. destruct (recv_callback e1); reflexivity.
  - destruct (reliable_enqueue _ _ _ _ _) as [[|] q]; simpl;
      [destruct (recv_callback e1)|]; reflexivity.
Qed.

Lemma sendMsg_conn_state m e :
  conn_state (snd (sendMsg m e)) = conn_state e /\
  last_heartbeat_rx_ms (snd (sendMsg m e)) = last_heartbeat_rx_ms e.
Proof.
  unfold sendMsg, xQueueOverwrite, xQueueSend.
  destruct (fast_mode e); [simpl; auto|]. destruct (Nat.ltb _ _); simpl; auto.
Qed.

Lemma step_conn_state g op e :
  conn_state (snd (fst (step g op e))) = next_conn_state op e.
Proof.
  destruct op as [| lk now k1 k2 msg | now | now | m | p | | buf | ok | b | now | b]; simpl.
  - reflexivity.
  - apply onDataReceived_conn_state.
  - unfold checkHeartbeat. destruct (_ <? _); [|reflexivity].
    destruct (conn_eqb _ _); reflexivity.
  - unfold heartbeatTimerCallback, sendSysMsg, checkHeartbeat.
    destruct (sendMsg_conn_state (mkMsg RCMSG_TYPE_HEARTBEAT (my_addr e) (repeat 0 25)) e)
      as [E1 E2].
    rewrite E2. destruct (_ <? _); [|exact E1]. rewrite E1.
    destruct (conn_eqb _ _); [reflexivity|exact E1].
  - apply sendMsg_conn_state.
  - apply sendMsg_conn_state.
  - destruct (recvMsg e) as [r e'] eqn:E. simpl. unfold recvMsg in E.
    destruct (xQueueReceive _); inversion E; reflexivity.
  - unfold recvData, recvMsg. destruct (xQueueReceive (queue_recv e)) as [[m|] q]; simpl;
      [destruct (negb _)|]; reflexivity.
  - unfold drainOne. destruct (queue_send e); reflexivity.
  - reflexivity.
  - reflexivity.
  - reflexivity.
Qed.

Lemma run_never_error g ops e :
  conn_state e <> ERROR -> conn_state (snd (fst (run g ops e))) <> ERROR.
Proof.
  revert g e; induction ops as [|op ops IH]; intros g e He; simpl; [exact He|].
  pose proof (step_conn_state g op e) as Hs.
  destruct (step g op e) as [[g1 e1] r]. simpl in Hs.
  specialize (IH g1 e1).
  destruct (run g1 ops e1) as [[g2 e2] out]. simpl in *. apply IH.
  rewrite Hs. destruct op; simpl; try exact He; try discriminate.
  - destruct lock_ok; [discriminate|exact He].
  - destruct (_ && _); [discriminate|exact He].
  - destruct (_ && _); [discriminate|exact He].
Qed.

(** C3 (amended): every base-engine operation changes the connection state
    exactly as [next_conn_state] says: [connect()] sets CONNECTING from any
    state; [onDataReceived], once it holds the lock, sets CONNECTED from any
    state and for any message type; [checkHeartbeat] and the timer tick move
    CONNECTED to DISCONNECTED after more than 300 ms (mod 2^32) without a
    receipt; nothing else changes it. No base-engine run from construction
    ever reaches ERROR. *)
Theorem conn_state_transitions :
  (forall g op e, conn_state (snd (fst (step g op e))) = next_conn_state op e) /\
  (forall g ops fast now, conn_state (snd (fst (run g ops (Engine_init fast now)))) <> ERROR).
Proof.
  split.
  - apply step_conn_state.
  - intros g ops fast now. apply run_never_error. discriminate.
Qed.

(** ** Broadcast addresses *)

(** An address whose used length is 6, as an ESP-NOW or WiFi MAC would be. *)
Definition addr6 : RCAddress := mkAddr (repeat 0 16) 6.

(** C7 (counterexample): the NRF24 backend's broadcast address does not
    satisfy [isBroadcast], and neither does the WiFi one with a 6-byte
    used length. *)
Lemma broadcast_counterexample :
  isBroadcast (createBroadcastAddress NRF24 addr6) = false /\
  isBroadcast (createBroadcastAddress WIFI addr6) = false.
Proof. split; reflexivity. Qed.

Lemma size_cases (s : Z) :
  0 < s <= 6 -> s = 1 \/ s = 2 \/ s = 3 \/ s = 4 \/ s = 5 \/ s = 6.
Proof. lia. Qed.

(** C7 (amended): [createBroadcastAddress] writes the backend's six-byte
    pattern into [data[0..5]]. For the base engine and ESP-NOW the pattern
    is six 0xFF bytes, and the result satisfies [isBroadcast] whenever its
    used length is between 1 and 6; the NRF24 result never satisfies
    [isBroadcast]; the WiFi result ([FF FF FF FF 00 00]) satisfies it only
    when its used length is at most 4. *)
Theorem broadcast_address_by_backend :
  (forall b a, firstn 6 (addr_data (createBroadcastAddress b a)) =
     match b with
     | BASE | ESPNOW => [255; 255; 255; 255; 255; 255]
     | WIFI => [255; 255; 255; 255; 0; 0]
     | NRF24 => [240; 240; 240; 240; 170; 0]
     end) /\
  (forall b a, (b = BASE \/ b = ESPNOW) -> 0 < addr_size a <= 6 ->
     isBroadcast (createBroadcastAddress b a) = true) /\
  (forall a, isBroadcast (createBroadcastAddress NRF24 a) = false) /\
  (forall a, isBroadcast (createBroadcastAddress WIFI a) = true -> addr_size a <= 4).
Proof.
  split; [|split; [|split]].
  - intros b a. destruct b; reflexivity.
  - intros b a Hb Hs.
    assert (H : isBroadcast (write_addr_prefix [255; 255; 255; 255; 255; 255] a) = true).
    { destruct a as [d s]; simpl in Hs.
      destruct (size_cases s Hs) as [-> | [-> | [-> | [-> | [-> | ->]]]]]; reflexivity. }
    destruct Hb as [-> | ->]; exact H.
  - intros [d s]. unfold isBroadcast, isValid, createBroadcastAddress, createBroadcastAddress_nrf24,
      write_addr_prefix. simpl.
    destruct ((0 <? s) && (s <=? RC_MAX_ADDR_SIZE)) eqn:V; simpl; [|reflexivity].
    apply andb_true_iff in V. destruct V as [V _]. apply Z.ltb_lt in V.
    destruct (Z.to_nat s) eqn:N; [lia|]. reflexivity.
  - intros [d s]. unfold isBroadcast, isValid, createBroadcastAddress, createBroadcastAddress_wifi,
      write_addr_prefix. simpl.
    destruct ((0 <? s) && (s <=? RC_MAX_ADDR_SIZE)) eqn:V; simpl; [|discriminate].
    intros H. destruct (Z_le_gt_dec s 4) as [Hle|Hgt]; [exact Hle|].
    exfalso. replace (Z.to_nat s) with (S (S (S (S (S (Z.to_nat s - 5)))))) in H by lia.
    simpl in H. discriminate.
Qed.

(** ** Throughput estimate *)

(** A [Metrics_t] created at [start] after a history of operations, each a
    timestamp and whether it was [addSuccess] ([true]) or [addFailure]. *)
Definition metrics_after (g : Globals) (start : Z) (hist : list (Z * bool)) : Metrics :=
  fold_left (fun m (ev : Z * bool) => if snd ev then addSuccess g m else addFailure g m)
    hist (Metrics_init start).

(** The operations of a history that fall in the 5 s before [now]. *)
Definition window_5s (now : Z) (hist : list (Z * bool)) : list (Z * bool) :=
  filter (fun ev => (now - 5000 <? fst ev) && (fst ev <=? now)) hist.

(** C8 (counterexample): two histories with the same (empty) activity in
    the last 5 s give different transaction rates, because one had a
    transaction at t = 100 ms: the rate is 0 for one and 1000/100000 per
    second for the other at t = 100 s. *)
Lemma rate_counterexample :
  window_5s 100000 [] = window_5s 100000 [(100, true)] /\
  ~ Qeq (getTransactionRate 100000 (metrics_after globals_on 0 []))
        (getTransactionRate 100000 (metrics_after globals_on 0 [(100, true)])).
Proof.
  split; [reflexivity|]. vm_compute. discriminate.
Qed.

Lemma metrics_after_total g hist m :
  RC_METRICS_ENABLED g = true -> 0 <= total m ->
  total m + Z.of_nat (length hist) < ULONG_MOD ->
  total (fold_left (fun m (ev : Z * bool) => if snd ev then addSuccess g m else addFailure g m) hist m)
  = total m + Z.of_nat (length hist).
Proof.
  unfold ULONG_MOD; revert m; induction hist as [|ev hist IH]; intros m Hg H0 Hl; simpl.
  - lia.
  - simpl length in Hl.
    assert (Ht : total (if snd ev then addSuccess g m else addFailure g m) = total m + 1).
    { unfold addSuccess, addFailure, u32, ULONG_MOD. rewrite Hg.
      destruct (snd ev); simpl; apply Z.mod_small; lia. }
    rewrite IH; [rewrite Ht; lia | exact Hg | rewrite Ht; lia | rewrite Ht; lia].
Qed.

Lemma metrics_after_start g hist : forall m,
  start_time_ms (fold_left
    (fun m (ev : Z * bool) => if snd ev then addSuccess g m else addFailure g m) hist m)
  = start_time_ms m.
Proof.
  induction hist as [|ev hist IH]; intros m; simpl; [reflexivity|].
  rewrite IH. unfold addSuccess, addFailure.
  destruct (RC_METRICS_ENABLED g), (snd ev); reflexivity.
Qed.

(** C8 (amended): with metrics counting, the transaction rate of a
    [Metrics_t] created at [start] is [total * 1000 / (now - start)]: all
    operations since construction over all the time since construction
    (0 during the first second); [reset()] keeps [start_time_ms]. *)
Theorem rate_since_start (g : Globals) (start now : Z) (hist : list (Z * bool)) :
  RC_METRICS_ENABLED g = true ->
  Z.of_nat (length hist) < ULONG_MOD ->
  start + 1000 <= now < start + ULONG_MOD ->
  getTransactionRate now (metrics_after g start hist)
  = Qmake (Z.of_nat (length hist) * 1000) (Z.to_pos (now - start)) /\
  (forall t, start_time_ms (reset t (metrics_after g start hist)) = start).
Proof.
  intros Hg Hl Hn.
  pose proof (metrics_after_start g hist) as Hs.
  split.
  - unfold getTransactionRate, metrics_after. rewrite Hs.
    rewrite metrics_after_total by (first [exact Hg | simpl; lia]). simpl start_time_ms.
    unfold u32. rewrite Z.mod_small by (unfold ULONG_MOD in *; lia).
    assert (E : (now - start <? 1000) = false) by (apply Z.ltb_ge; lia).
    rewrite E. simpl total. rewrite Z.add_0_l. reflexivity.
  - intros t. unfold metrics_after. simpl. apply Hs.
Qed.

(** Witness for C8 (amended): 200 operations since t = 0, read at t = 10 s. *)
Lemma rate_since_start_witness :
  (Z.of_nat (length (repeat (7, true) 200)) < ULONG_MOD /\ 0 + 1000 <= 10000 < 0 + ULONG_MOD) /\
  getTransactionRate 10000 (metrics_after globals_on 0 (repeat (7, true) 200))
  = Qmake (Z.of_nat (length (repeat (7, true) 200)) * 1000) (Z.to_pos (10000 - 0)).
Proof.
  assert (H1 : Z.of_nat (length (repeat (7, true) 200)) < ULONG_MOD)
    by (vm_compute; reflexivity).
  assert (H2 : 0 + 1000 <= 10000 < 0 + ULONG_MOD) by (unfold ULONG_MOD; lia).
  split; [split; assumption|].
  exact (proj1 (rate_since_start globals_on 0 10000 (repeat (7, true) 200) eq_refl H1 H2)).
Defined.

(** A reliable engine with inbound depth 2, full with [msgSys; msgA]. *)
Definition engine_full2 : Engine :=
  setOnRecieveMsgHandler true
    (set_queue_recv [msgSys; msgA]
       (mkEngine CONNECTED false 2 2 [] [] 0 [1; 2; 3; 4; 5; 6] [9; 9; 9; 9; 9; 9]
          (Metrics_init 0) (Metrics_init 0) false [] [] true)).

(** Witness for C4: [msgB] arrives at the full depth-2 queue; [msgSys] is
    evicted and [msgB] is stored behind [msgA]. *)
Lemma reliable_overflow_keeps_newest_witness :
  (fast_mode engine_full2 = false /\ type msgB = RCMSG_TYPE_DATA /\
   length (queue_recv engine_full2) = recv_depth engine_full2 /\
   skipn 0 (queue_recv engine_full2) = msgSys :: [msgA]) /\
  queue_recv (onDataReceived globals_on true 40 0 0 msgB engine_full2) = [msgA; msgB].
Proof.
  assert (H1 : fast_mode engine_full2 = false) by reflexivity.
  assert (H2 : type msgB = RCMSG_TYPE_DATA) by reflexivity.
  assert (H3 : length (queue_recv engine_full2) = recv_depth engine_full2) by reflexivity.
  assert (H4 : skipn 0 (queue_recv engine_full2) = msgSys :: [msgA]) by reflexivity.
  split; [repeat split; assumption|].
  exact (proj1 (reliable_overflow_keeps_newest globals_on true 40 0 0 msgB engine_full2
                  msgSys [msgA] H1 H2 H3 H4)).
Defined.

(** * Further properties of the code *)

Lemma bytes_eqb_true (l1 l2 : list Z) : bytes_eqb l1 l2 = true <-> l1 = l2.
Proof.
  revert l2; induction l1 as [|x l1 IH]; intros [|y l2]; simpl;
    try (split; congruence).
  rewrite andb_true_iff, Z.eqb_eq, IH. split; [intros [-> ->]; reflexivity|].
  intros H; injection H; auto.
Qed.

Lemma setAddress_some_shape (bs : list Z) (sz : Z) (a : RCAddress) :
  0 < sz <= RC_MAX_ADDR_SIZE -> (Z.to_nat sz <= length bs)%nat ->
  length (addr_data a) = Z.to_nat RC_MAX_ADDR_SIZE ->
  setAddress (Some bs) sz a
  = mkAddr (firstn (Z.to_nat sz) bs ++ repeat 0 (Z.to_nat (RC_MAX_ADDR_SIZE - sz))) sz.
Proof.
  unfold RC_MAX_ADDR_SIZE; intros Hsz Hlen Ha. unfold setAddress, RC_MAX_ADDR_SIZE.
  replace ((0 <? sz) && (sz <=? 16)) with true
    by (symmetry; apply andb_true_iff; split; [apply Z.ltb_lt | apply Z.leb_le]; lia).
  destruct (Z.ltb_spec sz 16) as [Hlt|Hge].
  - rewrite firstn_app, firstn_firstn, Nat.min_id, firstn_length_le by lia.
    rewrite Nat.sub_diag, firstn_O, app_nil_r. reflexivity.
  - assert (sz = 16) by lia; subst sz. cbn [Z.sub]. simpl (Z.to_nat 0).
    rewrite skipn_all2 by (rewrite Ha; simpl; lia). reflexivity.
Qed.

(** [RCAddress_t::setAddress] with a non-null pointer and a size in
    [1, RC_MAX_ADDR_SIZE] stores the first [size] source bytes followed by
    zeros up to 16 bytes, and the address is valid. *)
Theorem setAddress_valid_prefix (bs : list Z) (sz : Z) (a : RCAddress) :
  0 < sz <= RC_MAX_ADDR_SIZE -> (Z.to_nat sz <= length bs)%nat ->
  length (addr_data a) = Z.to_nat RC_MAX_ADDR_SIZE ->
  setAddress (Some bs) sz a
  = mkAddr (firstn (Z.to_nat sz) bs ++ repeat 0 (Z.to_nat (RC_MAX_ADDR_SIZE - sz))) sz /\
  isValid (setAddress (Some bs) sz a) = true /\
  length (addr_data (setAddress (Some bs) sz a)) = Z.to_nat RC_MAX_ADDR_SIZE.
Proof.
  intros Hsz Hl Ha. rewrite setAddress_some_shape by assumption.
  split; [reflexivity|]. split.
  - unfold isValid; cbn [addr_size]. apply andb_true_iff.
    split; [apply Z.ltb_lt | apply Z.leb_le]; lia.
  - cbn [addr_data]. rewrite length_app, repeat_length, firstn_length_le by lia.
    unfold RC_MAX_ADDR_SIZE in *. lia.
Qed.

Lemma setAddress_valid_prefix_witness :
  0 < 6 <= RC_MAX_ADDR_SIZE /\ (Z.to_nat 6 <= length addr_sample)%nat /\
  length (addr_data RCAddress_empty) = Z.to_nat RC_MAX_ADDR_SIZE /\
  setAddress (Some addr_sample) 6 RCAddress_empty
  = mkAddr (firstn (Z.to_nat 6) addr_sample ++ repeat 0 (Z.to_nat (RC_MAX_ADDR_SIZE - 6))) 6 /\
  isValid (setAddress (Some addr_sample) 6 RCAddress_empty) = true /\
  length (addr_data (setAddress (Some addr_sample) 6 RCAddress_empty)) = Z.to_nat RC_MAX_ADDR_SIZE.
Proof.
  assert (H1 : 0 < 6 <= RC_MAX_ADDR_SIZE) by (unfold RC_MAX_ADDR_SIZE; lia).
  assert (H2 : (Z.to_nat 6 <= length addr_sample)%nat) by (simpl; lia).
  assert (H3 : length (addr_data RCAddress_empty) = Z.to_nat RC_MAX_ADDR_SIZE) by reflexivity.
  split; [exact H1|]. split; [exact H2|]. split; [exact H3|].
  exact (setAddress_valid_prefix addr_sample 6 RCAddress_empty H1 H2 H3).
Defined.

(** Two addresses filled by [setAddress] with the same valid size compare
    equal with [operator==] exactly when the source byte prefixes of that
    size agree, whatever the objects held before. *)
Theorem setAddress_eqb_iff (bs1 bs2 : list Z) (sz : Z) (a b : RCAddress) :
  0 < sz <= RC_MAX_ADDR_SIZE ->
  (Z.to_nat sz <= length bs1)%nat -> (Z.to_nat sz <= length bs2)%nat ->
  length (addr_data a) = Z.to_nat RC_MAX_ADDR_SIZE ->
  length (addr_data b) = Z.to_nat RC_MAX_ADDR_SIZE ->
  addr_eqb (setAddress (Some bs1) sz a) (setAddress (Some bs2) sz b) = true
  <-> firstn (Z.to_nat sz) bs1 = firstn (Z.to_nat sz) bs2.
Proof.
  intros Hsz H1 H2 Ha Hb.
  rewrite !setAddress_some_shape by assumption.
  unfold addr_eqb, memcmp_eq. cbn [addr_size addr_data]. rewrite Z.eqb_refl, andb_true_l.
  rewrite bytes_eqb_true, !firstn_app, !firstn_firstn, Nat.min_id, !firstn_length_le by lia.
  rewrite Nat.sub_diag, !firstn_O, !app_nil_r. reflexivity.
Qed.

Lemma setAddress_eqb_iff_witness :
  0 < 6 <= RC_MAX_ADDR_SIZE /\ (Z.to_nat 6 <= length addr_bytes1)%nat /\
  (Z.to_nat 6 <= length addr_bytes2)%nat /\
  length (addr_data RCAddress_empty) = Z.to_nat RC_MAX_ADDR_SIZE /\
  length (addr_data (clear RCAddress_empty)) = Z.to_nat RC_MAX_ADDR_SIZE /\
  (addr_eqb (setAddress (Some addr_bytes1) 6 RCAddress_empty)
            (setAddress (Some addr_bytes2) 6 (clear RCAddress_empty)) = true
   <-> firstn (Z.to_nat 6) addr_bytes1 = firstn (Z.to_nat 6) addr_bytes2).
Proof.
  assert (H1 : 0 < 6 <= RC_MAX_ADDR_SIZE) by (unfold RC_MAX_ADDR_SIZE; lia).
  assert (H2 : (Z.to_nat 6 <= length addr_bytes1)%nat) by (simpl; lia).
  assert (H3 : (Z.to_nat 6 <= length addr_bytes2)%nat) by (simpl; lia).
  assert (H4 : length (addr_data RCAddress_empty) = Z.to_nat RC_MAX_ADDR_SIZE) by reflexivity.
  assert (H5 : length (addr_data (clear RCAddress_empty)) = Z.to_nat RC_MAX_ADDR_SIZE) by reflexivity.
  split; [exact H1|]. split; [exact H2|]. split; [exact H3|]. split; [exact H4|]. split; [exact H5|].
  exact (setAddress_eqb_iff addr_bytes1 addr_bytes2 6 RCAddress_empty (clear RCAddress_empty)
           H1 H2 H3 H4 H5).
Defined.

(** [setAddress] with a null pointer or a size outside [1, 16] clears the
    address: it equals [RCAddress_t()], is not valid and not broadcast. *)
Theorem setAddress_invalid (addr : option (list Z)) (sz : Z) (a : RCAddress) :
  addr = None \/ ~ (0 < sz <= RC_MAX_ADDR_SIZE) ->
  setAddress addr sz a = RCAddress_empty /\
  isValid (setAddress addr sz a) = false /\ isBroadcast (setAddress addr sz a) = false.
Proof.
  intros H.
  assert (E : setAddress addr sz a = RCAddress_empty).
  { unfold setAddress. destruct addr as [bs|]; [|reflexivity].
    destruct H as [H|H]; [discriminate|].
    replace ((0 <? sz) && (sz <=? RC_MAX_ADDR_SIZE)) with false; [reflexivity|].
    symmetry. apply Bool.not_true_iff_false. rewrite andb_true_iff, Z.ltb_lt, Z.leb_le. exact H. }
  rewrite E. auto.
Qed.

Lemma setAddress_invalid_witness :
  (Some [1; 2; 3] = None \/ ~ (0 < 17 <= RC_MAX_ADDR_SIZE)) /\
  setAddress (Some [1; 2; 3]) 17 RCAddress_empty = RCAddress_empty /\
  isValid (setAddress (Some [1; 2; 3]) 17 RCAddress_empty) = false /\
  isBroadcast (setAddress (Some [1; 2; 3]) 17 RCAddress_empty) = false.
Proof.
  assert (H : Some [1; 2; 3] = None \/ ~ (0 < 17 <= RC_MAX_ADDR_SIZE))
    by (right; unfold RC_MAX_ADDR_SIZE; lia).
  split; [exact H | apply (setAddress_invalid (Some [1; 2; 3]) 17 RCAddress_empty H)].
Defined.

(** ** Frames on the air *)

Lemma msg_of_bytes_msg_bytes (m : RCMessage) : msg_wf m -> msg_of_bytes (msg_bytes m) = m.
Proof.
  destruct m as [t f p]; intros [Hf Hp]; cbn in Hf, Hp; unfold RC_ADDR_SIZE in Hf.
  unfold msg_of_bytes, msg_bytes; cbn [type from_addr payload].
  change (nth 0 (t :: f ++ p) 0) with t.
  change (skipn 1 (t :: f ++ p)) with (f ++ p).
  change (skipn 7 (t :: f ++ p)) with (skipn 6 (f ++ p)).
  f_equal.
  - rewrite firstn_app, Hf, Nat.sub_diag, firstn_O, app_nil_r.
    apply firstn_all2. lia.
  - rewrite skipn_app, Hf, Nat.sub_diag, skipn_all2 by lia.
    rewrite app_nil_l. change (skipn 0 p) with p. apply firstn_all2. lia.
Qed.

Lemma msg_bytes_length (m : RCMessage) : msg_wf m -> length (msg_bytes m) = 32%nat.
Proof. intros [Hf Hp]. unfold msg_bytes. simpl. rewrite length_app, Hf, Hp. reflexivity. Qed.

(** A 32-byte frame produced from a well-formed DATA or HEARTBEAT message
    (the bytes [lowLevelSend] hands to the radio) is parsed back by
    [ESP32_RC_ESPNOW::parseRawData] to the same message; [onDataRecvStatic]
    then only replaces the sender address with the MAC reported by ESP-NOW. *)
Theorem espnow_frame_roundtrip (mac : list Z) (m : RCMessage) :
  msg_wf m -> type m = RCMSG_TYPE_DATA \/ type m = RCMSG_TYPE_HEARTBEAT ->
  parseRawData_espnow (Some (msg_bytes m)) (Z.of_nat (length (msg_bytes m))) = m /\
  espnow_rx_msg mac (Some (msg_bytes m)) (Z.of_nat (length (msg_bytes m)))
  = mkMsg (type m) (firstn RC_ADDR_SIZE mac) (payload m).
Proof.
  intros Hwf Ht.
  assert (P : parseRawData_espnow (Some (msg_bytes m)) (Z.of_nat (length (msg_bytes m))) = m).
  { unfold parseRawData_espnow. rewrite msg_bytes_length by exact Hwf.
    change (negb (Z.of_nat 32 =? RC_MESSAGE_MAX_SIZE)) with false.
    change (RC_MESSAGE_MAX_SIZE <? Z.of_nat 32) with false. cbv iota zeta.
    rewrite msg_of_bytes_msg_bytes by exact Hwf.
    destruct Ht as [-> | ->]; reflexivity. }
  split; [exact P|]. unfold espnow_rx_msg. rewrite P. reflexivity.
Qed.

Lemma espnow_frame_roundtrip_witness :
  msg_wf frame_sample /\ (type frame_sample = RCMSG_TYPE_DATA \/ type frame_sample = RCMSG_TYPE_HEARTBEAT) /\
  parseRawData_espnow (Some (msg_bytes frame_sample)) (Z.of_nat (length (msg_bytes frame_sample))) = frame_sample /\
  espnow_rx_msg [36; 111; 40; 1; 2; 3] (Some (msg_bytes frame_sample)) (Z.of_nat (length (msg_bytes frame_sample)))
  = mkMsg (type frame_sample) (firstn RC_ADDR_SIZE [36; 111; 40; 1; 2; 3]) (payload frame_sample).
Proof.
  assert (W : msg_wf frame_sample) by (split; reflexivity).
  assert (T : type frame_sample = RCMSG_TYPE_DATA \/ type frame_sample = RCMSG_TYPE_HEARTBEAT) by (right; reflexivity).
  split; [exact W|]. split; [exact T|].
  apply (espnow_frame_roundtrip [36; 111; 40; 1; 2; 3] frame_sample W T).
Defined.

(** ** Backend send retries *)
Lemma send_retry_loop_spec (attempt : nat -> bool) (retry fuel : nat) :
  let (n, ok) := send_retry_loop attempt retry fuel in
  (n <= fuel)%nat /\ (fuel <> 0%nat -> 1 <= n)%nat /\
  (forall i, (i < n - 1)%nat -> attempt (retry + i)%nat = false) /\
  (ok = true -> attempt (retry + (n - 1))%nat = true) /\
  (ok = false -> n = fuel /\ forall i, (i < fuel)%nat -> attempt (retry + i)%nat = false) /\
  (ok = true -> (n - 1 < fuel)%nat).
Proof.
  revert retry; induction fuel as [|f IH]; intros retry; simpl.
  - repeat split; intros; try lia; discriminate.
  - destruct (attempt retry) eqn:A.
    + repeat split; intros; try lia; try discriminate. rewrite Nat.add_0_r. exact A.
    + specialize (IH (S retry)). destruct (send_retry_loop attempt (S retry) f) as [n ok].
      destruct IH as (I1 & I2 & I3 & I4 & I5 & I6).
      repeat split.
      * lia.
      * lia.
      * intros i Hi. destruct i as [|i]; [rewrite Nat.add_0_r; exact A|].
        replace (retry + S i)%nat with (S retry + i)%nat by lia. apply I3. lia.
      * intros Hok. specialize (I4 Hok). specialize (I6 Hok).
        destruct n as [|n]; [destruct f; simpl in *; lia|].
        replace (retry + (S (S n) - 1))%nat with (S retry + (S n - 1))%nat by lia. exact I4.
      * match goal with Hok : ok = false |- _ => destruct (I5 Hok) as [-> _] end. reflexivity.
      * intros i Hi. match goal with Hok : ok = false |- _ => destruct (I5 Hok) as [_ I] end. destruct i as [|i]; [rewrite Nat.add_0_r; exact A|].
        replace (retry + S i)%nat with (S retry + i)%nat by lia. apply I. lia.
      * intros Hok. specialize (I6 Hok). lia.
Qed.

Lemma retry_loop_facts (attempt : nat -> bool) :
  let (n, ok) := retry_loop attempt in
  (1 <= n <= 4)%nat /\ ok = existsb attempt (seq 0 4) /\
  (forall i, (i < n - 1)%nat -> attempt i = false) /\
  ((n < 4)%nat -> attempt (n - 1)%nat = true).
Proof.
  pose proof (send_retry_loop_spec attempt 0 4) as S. unfold retry_loop, MAX_SEND_RETRIES.
  destruct (send_retry_loop attempt 0 4) as [n ok].
  destruct S as (I1 & I2 & I3 & I4 & I5 & I6).
  split; [split; [apply I2; discriminate | exact I1]|].
  split; [|split; [exact I3|]].
  - destruct ok.
    + specialize (I4 eq_refl). specialize (I6 eq_refl). symmetry. apply existsb_exists.
      exists (n - 1)%nat. split; [apply in_seq; lia | exact I4].
    + destruct (I5 eq_refl) as [_ I]. symmetry. apply Bool.not_true_iff_false.
      rewrite existsb_exists. intros [x [Hx Ax]]. apply in_seq in Hx.
      specialize (I x ltac:(lia)). simpl in I. congruence.
  - intros Hn. destruct ok; [apply (I4 eq_refl) | destruct (I5 eq_refl); lia].
Qed.

(** [ESP32_RC_ESPNOW::lowLevelSend] calls [esp_now_send] between one and
    four times, always with the same target (the peer when CONNECTED, the
    broadcast MAC otherwise) and the message bytes; it stops at the first
    success, and records exactly one success (if any of the four tries can
    succeed) or one failure in the send metrics, changing nothing else. *)
Theorem espnow_lowLevelSend_retries (g : Globals) (attempt : nat -> bool) (msg : RCMessage) (e : Engine) :
  let '(calls, e') := espnow_lowLevelSend g attempt msg e in
  (1 <= length calls <= 4)%nat /\
  Forall (fun c => c = (if conn_eqb (conn_state e) CONNECTED then peer_addr e else bcast, msg_bytes msg)) calls /\
  (forall i, (i < length calls - 1)%nat -> attempt i = false) /\
  ((length calls < 4)%nat -> attempt (length calls - 1)%nat = true) /\
  e' = set_send_metrics (if existsb attempt (seq 0 4) then addSuccess g (send_metrics e)
                         else addFailure g (send_metrics e)) e.
Proof.
  unfold espnow_lowLevelSend. pose proof (retry_loop_facts attempt) as F.
  destruct (retry_loop attempt) as [n ok]. destruct F as (F1 & F2 & F3 & F4).
  rewrite repeat_length. subst ok. repeat split; try lia; auto.
  apply Forall_forall. intros c Hc. apply repeat_spec in Hc. exact Hc.
Qed.

(** [ESP32_RC_NRF24::lowLevelSend] makes one to four radio writes; a
    heartbeat leaves the engine (and its send metrics) untouched whatever the
    outcome, any other message records exactly one success or failure. *)
Theorem nrf24_lowLevelSend_metrics (g : Globals) (attempt : nat -> bool) (msg : RCMessage) (e : Engine) :
  let '(n, e') := nrf24_lowLevelSend g attempt msg e in
  (1 <= n <= 4)%nat /\
  (type msg = RCMSG_TYPE_HEARTBEAT -> e' = e) /\
  (type msg <> RCMSG_TYPE_HEARTBEAT ->
   e' = set_send_metrics (if existsb attempt (seq 0 4) then addSuccess g (send_metrics e)
                          else addFailure g (send_metrics e)) e).
Proof.
  unfold nrf24_lowLevelSend. pose proof (retry_loop_facts attempt) as F.
  destruct (retry_loop attempt) as [n ok]. destruct F as (F1 & F2 & _ & _). subst ok.
  destruct (Z.eqb_spec (type msg) RCMSG_TYPE_HEARTBEAT) as [H|H]; cbn [negb].
  - split; [exact F1|]. split; [reflexivity | intros H'; contradiction].
  - split; [exact F1|]. split; [intros H'; contradiction | reflexivity].
Qed.

(** ** ESP-NOW peer table *)

(** The ESP-NOW engine only ever points at a peer registered in the driver's
    peer list (or at the all-zero MAC): [setPeerAddr] and [unsetPeerAddr]
    keep this; a null pointer or a null MAC changes neither the list nor the
    engine. *)
Theorem espnow_peer_table_invariant (add_ok del_ok : bool) (peer : option (list Z))
  (tbl : list (list Z)) (e : Engine) :
  peer_registered tbl e ->
  (let '(tbl', e') := espnow_setPeerAddr add_ok peer tbl e in peer_registered tbl' e') /\
  (let '(tbl', e') := espnow_unsetPeerAddr del_ok tbl e in peer_registered tbl' e') /\
  espnow_setPeerAddr add_ok None tbl e = (tbl, e) /\
  (forall p, firstn RC_ADDR_SIZE p = repeat 0 RC_ADDR_SIZE ->
   espnow_setPeerAddr add_ok (Some p) tbl e = (tbl, e)).
Proof.
  intros Hinv. split; [|split; [|split]].
  - unfold espnow_setPeerAddr. destruct peer as [p|]; [|exact Hinv].
    destruct (bytes_eqb _ _); [exact Hinv|].
    destruct (existsb (bytes_eqb (firstn RC_ADDR_SIZE p)) tbl) eqn:Ex.
    + right. cbn [peer_addr set_peer_addr]. apply existsb_exists in Ex.
      destruct Ex as [x [Hx Ex]]. apply bytes_eqb_true in Ex. subst x. exact Hx.
    + destruct add_ok; [|exact Hinv]. right. simpl. left. reflexivity.
  - left. reflexivity.
  - reflexivity.
  - intros p Hp. unfold espnow_setPeerAddr. rewrite Hp. reflexivity.
Qed.

(** ** NRF24 addresses *)
Lemma nrf_mac_roundtrip_gen (mac : list Z) :
  length mac = RC_ADDR_SIZE ->
  nrfToMacAddress (macToNrfAddress mac) = mac <-> nth 0 mac 0 = 210.
Proof.
  intros Hl. destruct mac as [|a [|b [|c [|d [|f [|h [|]]]]]]]; try discriminate Hl.
  unfold macToNrfAddress, nrfToMacAddress; cbn [nth]. split.
  - intros H. injection H. intros; subst; reflexivity.
  - intros ->. rewrite (Z.lxor_comm 210 h), Z.lxor_assoc, Z.lxor_nilpotent, Z.lxor_0_r.
    reflexivity.
Qed.

(** Converting a 6-byte MAC to an NRF24 address and back
    ([macToNrfAddress] then [nrfToMacAddress]) gives the MAC back exactly
    when its first byte is the fixed prefix 0xD2. *)
Theorem nrf_mac_roundtrip_iff (mac : list Z) :
  length mac = RC_ADDR_SIZE ->
  nrfToMacAddress (macToNrfAddress mac) = mac <-> nth 0 mac 0 = 210.
Proof. apply nrf_mac_roundtrip_gen. Qed.

(** In [ESP32_RC_NRF24::init], rebuilding [my_addr_] from [nrf_my_addr_]
    with [nrfToMacAddress] gives back the address [generateMyNrfAddress]
    produced, for every chip id. *)
Theorem nrf24_init_keeps_my_addr (chipId : Z) :
  nrf24_init_my_addr chipId = fst (generateMyNrfAddress chipId).
Proof.
  unfold nrf24_init_my_addr. apply nrf_mac_roundtrip_gen; reflexivity.
Qed.

(** ** NRF24 receive path *)
Lemma generate_my_addr_length (c : Z) : length (fst (generateMyNrfAddress c)) = RC_ADDR_SIZE.
Proof. reflexivity. Qed.

(** A heartbeat frame sent by another NRF24 node (its generated address as
    sender) before the handshake completes is forwarded to [onDataReceived]
    and completes the handshake: the peer MAC is stored, [nrf_peer_addr_]
    becomes that node's own reading address [nrf_my_addr_], and the peer
    pipe is selected. *)
Theorem nrf24_handshake_targets_peer_pipe (c : Z) (pl : list Z) (s : Nrf24) :
  length pl = 25%nat -> handshake_completed s = false ->
  firstn RC_ADDR_SIZE (my_addr (nrf_engine s)) <> fst (generateMyNrfAddress c) ->
  let hb := mkMsg RCMSG_TYPE_HEARTBEAT (fst (generateMyNrfAddress c)) pl in
  nrf24_receive_frame 32 (msg_bytes hb) s
  = (mkNrf24 true 1 (snd (generateMyNrfAddress c))
       (set_peer_addr (fst (generateMyNrfAddress c)) (nrf_engine s)), Some hb).
Proof.
  intros Hpl Hhs Hself hb.
  assert (Hwf : msg_wf hb) by (split; [reflexivity | exact Hpl]).
  unfold nrf24_receive_frame.
  change ((32 =? 0) || (32 <? 32)) with false. cbv iota zeta.
  change (Z.to_nat 32) with 32%nat. change (Z.to_nat (32 - 32)) with 0%nat. cbn [repeat].
  rewrite app_nil_r, firstn_all2 by (rewrite msg_bytes_length by exact Hwf; lia).
  change (negb (32 =? RC_MESSAGE_MAX_SIZE)) with false. cbv iota.
  assert (P : parseRawData_nrf24 (Some (msg_bytes hb)) 32 = hb).
  { unfold parseRawData_nrf24. change (negb (32 =? RC_MESSAGE_MAX_SIZE)) with false.
    cbv iota zeta. rewrite msg_of_bytes_msg_bytes by exact Hwf. reflexivity. }
  rewrite P.
  replace (memcmp_eq RC_ADDR_SIZE (from_addr hb) (my_addr (nrf_engine s))) with false.
  2:{ symmetry. apply Bool.not_true_iff_false. unfold memcmp_eq. rewrite bytes_eqb_true.
      intros H. apply Hself. rewrite <- H. reflexivity. }
  change (type hb =? RCMSG_TYPE_HEARTBEAT) with true. cbv iota. rewrite Hhs.
  unfold handleHandshakeMessage. change (type hb =? RCMSG_TYPE_HEARTBEAT) with true. cbv iota zeta.
  unfold nrf24_setPeerAddr. cbn [from_addr hb].
  replace (firstn RC_ADDR_SIZE (fst (generateMyNrfAddress c))) with (fst (generateMyNrfAddress c))
    by (rewrite firstn_all2; [reflexivity | rewrite generate_my_addr_length; lia]).
  change (bytes_eqb (fst (generateMyNrfAddress c)) (repeat 0 RC_ADDR_SIZE)) with false. cbv iota.
  unfold switchToPeerPipe. cbn [pipeType handshake_completed nrf_peer_addr nrf_engine].
  destruct (Z.eqb_spec (pipeType s) 1) as [->|_]; reflexivity.
Qed.

(** [ESP32_RC_NRF24::receiveLoop] forwards a frame to [onDataReceived] only
    if it is 32 bytes long, not sent by this node, and a heartbeat or a DATA
    message after the handshake; the forwarded message is the parsed frame.
    Only a forwarded heartbeat before the handshake changes the backend
    state; every other frame leaves it as it was. *)
Theorem nrf24_receive_filter (len : Z) (frame : list Z) (s : Nrf24) :
  match nrf24_receive_frame len frame s with
  | (s', None) => s' = s
  | (s', Some m) =>
      len = 32 /\ m = parseRawData_nrf24 (Some (firstn 32 frame)) 32 /\
      memcmp_eq RC_ADDR_SIZE (from_addr m) (my_addr (nrf_engine s)) = false /\
      ((type m = RCMSG_TYPE_HEARTBEAT /\
        s' = (if handshake_completed s then s else handleHandshakeMessage m s)) \/
       (type m = RCMSG_TYPE_DATA /\ handshake_completed s = true /\ s' = s))
  end.
Proof.
  unfold nrf24_receive_frame.
  destruct ((len =? 0) || (32 <? len)); [reflexivity|]. cbv zeta.
  destruct (Z.eqb_spec len RC_MESSAGE_MAX_SIZE) as [Hl|Hl]; [|reflexivity].
  cbn [negb]. unfold RC_MESSAGE_MAX_SIZE in Hl. subst len.
  change (Z.to_nat 32) with 32%nat. change (Z.to_nat (32 - 32)) with 0%nat.
  cbn [repeat]. rewrite app_nil_r.
  destruct (memcmp_eq _ _ _) eqn:Hm; [reflexivity|].
  destruct (Z.eqb_spec (type (parseRawData_nrf24 (Some (firstn 32 frame)) 32)) RCMSG_TYPE_HEARTBEAT) as [Ht|Ht].
  - repeat split; auto.
  - destruct (Z.eqb_spec (type (parseRawData_nrf24 (Some (firstn 32 frame)) 32)) RCMSG_TYPE_DATA) as [Hd|Hd];
      [|reflexivity].
    destruct (handshake_completed s) eqn:Hh; [|reflexivity].
    repeat split; auto.
Qed.

(** ** Outbound queue and send task *)
Lemma set_queue_send_twice (q q' : list RCMessage) (e : Engine) :
  set_queue_send q (set_queue_send q' e) = set_queue_send q e.
Proof. reflexivity. Qed.

Lemma set_queue_send_same (e : Engine) : set_queue_send (queue_send e) e = e.
Proof. destruct e; reflexivity. Qed.

Lemma sendMsgs_reliable_gen (ms : list RCMessage) (e : Engine) :
  fast_mode e = false -> (length (queue_send e) <= send_depth e)%nat ->
  let k := (send_depth e - length (queue_send e))%nat in
  sendMsgs ms e = (repeat true (Nat.min k (length ms)) ++ repeat false (length ms - k),
                   set_queue_send (queue_send e ++ firstn k ms) e).
Proof.
  revert e; induction ms as [|m ms IH]; intros e Hf Hl k.
  - cbn [sendMsgs length]. rewrite Nat.min_0_r, firstn_nil, !app_nil_r, set_queue_send_same.
    reflexivity.
  - cbn [sendMsgs]. unfold sendMsg at 1. rewrite Hf. unfold xQueueSend.
    destruct (Nat.ltb_spec (length (queue_send e)) (send_depth e)) as [Hlt|Hge].
    + set (e1 := set_queue_send (queue_send e ++ [m]) e).
      assert (F1 : fast_mode e1 = false) by exact Hf.
      assert (L1 : (length (queue_send e1) <= send_depth e1)%nat)
        by (simpl; rewrite length_app; simpl; lia).
      pose proof (IH e1 F1 L1) as R. cbv zeta in R. rewrite R.
      subst e1. cbn [queue_send send_depth set_queue_send].
      rewrite length_app. cbn [length].
      replace k with (S (send_depth e - (length (queue_send e) + 1))) by (subst k; lia).
      cbn [Nat.min firstn repeat length Nat.sub]. rewrite <- app_assoc. reflexivity.
    + pose proof (IH e Hf Hl) as R. cbv zeta in R. rewrite R.
      assert (Hk : k = 0%nat) by (subst k; lia). rewrite Hk.
      cbn [Nat.min firstn repeat length Nat.sub app].
      replace (send_depth e - length (queue_send e))%nat with 0%nat by lia.
      cbn [Nat.min firstn repeat app]. rewrite Nat.sub_0_r. reflexivity.
Qed.

Lemma sendMsgs_fast_gen (ms : list RCMessage) (m : RCMessage) (e : Engine) :
  fast_mode e = true ->
  sendMsgs (ms ++ [m]) e = (repeat true (S (length ms)), set_queue_send [m] e).
Proof.
  revert e; induction ms as [|m0 ms IH]; intros e Hf.
  - simpl. unfold sendMsg. rewrite Hf. reflexivity.
  - cbn [app sendMsgs]. unfold sendMsg at 1. rewrite Hf. cbn [xQueueOverwrite].
    rewrite (IH (set_queue_send [m0] e) Hf). reflexivity.
Qed.

Lemma drain_loop_nil (n : nat) (g : Globals) (oks : list bool) (e : Engine) :
  queue_send e = [] -> drain_loop n g oks e = e.
Proof.
  revert oks; induction n as [|n IH]; intros oks H; [reflexivity|].
  cbn [drain_loop]. unfold drainOne. rewrite H. cbn [xQueueReceive]. apply IH. exact H.
Qed.

Lemma drain_loop_all (n : nat) (g : Globals) (oks : list bool) (e : Engine) :
  (length (queue_send e) <= n)%nat ->
  queue_send (drain_loop n g oks e) = [] /\
  sent_log (drain_loop n g oks e) = sent_log e ++ queue_send e.
Proof.
  revert oks e; induction n as [|n IH]; intros oks e Hl.
  - destruct (queue_send e) eqn:Q; [|simpl in Hl; lia]. simpl. rewrite Q, app_nil_r. auto.
  - cbn [drain_loop]. unfold drainOne. destruct (queue_send e) as [|m q] eqn:Q.
    + cbn [xQueueReceive]. rewrite drain_loop_nil by exact Q. rewrite Q, app_nil_r. auto.
    + cbn [xQueueReceive].
      set (e1 := set_send_metrics _ _).
      assert (Q1 : queue_send e1 = q) by reflexivity.
      assert (S1 : sent_log e1 = sent_log e ++ [m]) by reflexivity.
      destruct (IH (tl oks) e1) as [A B]; [rewrite Q1; simpl in Hl; lia|].
      split; [exact A|]. rewrite B, Q1, S1, <- app_assoc. reflexivity.
Qed.

Lemma sendFromQueueLoop_burst_all (g : Globals) (oks : list bool) (e : Engine) :
  queue_send (sendFromQueueLoop_burst g oks e) = [] /\
  sent_log (sendFromQueueLoop_burst g oks e) = sent_log e ++ queue_send e.
Proof. apply drain_loop_all. lia. Qed.

(** Reliable mode, starting with an empty outbound queue: a run of
    [sendMsg] calls accepts the first [send_depth] messages and refuses the
    rest; one pass of the send task then hands exactly the accepted messages
    to [lowLevelSend], oldest first, and empties the queue. *)
Theorem reliable_send_then_drain (g : Globals) (oks : list bool) (ms : list RCMessage) (e : Engine) :
  fast_mode e = false -> queue_send e = [] ->
  let (res, e1) := sendMsgs ms e in
  res = repeat true (Nat.min (send_depth e) (length ms)) ++ repeat false (length ms - send_depth e) /\
  queue_send e1 = firstn (send_depth e) ms /\
  queue_send (sendFromQueueLoop_burst g oks e1) = [] /\
  sent_log (sendFromQueueLoop_burst g oks e1) = sent_log e ++ firstn (send_depth e) ms.
Proof.
  intros Hf Hq.
  pose proof (sendMsgs_reliable_gen ms e Hf) as R. rewrite Hq in R. cbv zeta in R.
  cbn [length] in R. rewrite Nat.sub_0_r in R. rewrite (R ltac:(lia)).
  destruct (sendFromQueueLoop_burst_all g oks (set_queue_send ([] ++ firstn (send_depth e) ms) e)) as [A B].
  split; [reflexivity|]. split; [reflexivity|]. split; [exact A|]. rewrite B. reflexivity.
Qed.

Lemma reliable_send_then_drain_witness :
  fast_mode (Engine_init false 0) = false /\ queue_send (Engine_init false 0) = [] /\
  let (res, e1) := sendMsgs (repeat out_msg1 11) (Engine_init false 0) in
  res = repeat true (Nat.min (send_depth (Engine_init false 0)) (length (repeat out_msg1 11)))
        ++ repeat false (length (repeat out_msg1 11) - send_depth (Engine_init false 0)) /\
  queue_send e1 = firstn (send_depth (Engine_init false 0)) (repeat out_msg1 11) /\
  queue_send (sendFromQueueLoop_burst globals_on [true] e1) = [] /\
  sent_log (sendFromQueueLoop_burst globals_on [true] e1)
  = sent_log (Engine_init false 0) ++ firstn (send_depth (Engine_init false 0)) (repeat out_msg1 11).
Proof.
  split; [reflexivity|]. split; [reflexivity|].
  exact (reliable_send_then_drain globals_on [true] (repeat out_msg1 11) (Engine_init false 0)
           eq_refl eq_refl).
Defined.

(** Fast mode: every [sendMsg] succeeds and overwrites the one-slot queue,
    so after a run of sends the send task transmits only the last message. *)
Theorem fast_send_keeps_latest (g : Globals) (oks : list bool) (ms : list RCMessage) (m : RCMessage)
  (e : Engine) :
  fast_mode e = true ->
  let (res, e1) := sendMsgs (ms ++ [m]) e in
  res = repeat true (S (length ms)) /\ queue_send e1 = [m] /\
  queue_send (sendFromQueueLoop_burst g oks e1) = [] /\
  sent_log (sendFromQueueLoop_burst g oks e1) = sent_log e ++ [m].
Proof.
  intros Hf. rewrite (sendMsgs_fast_gen ms m e Hf).
  destruct (sendFromQueueLoop_burst_all g oks (set_queue_send [m] e)) as [A B].
  split; [reflexivity|]. split; [reflexivity|]. split; [exact A|]. rewrite B. reflexivity.
Qed.

Lemma fast_send_keeps_latest_witness :
  fast_mode (Engine_init true 0) = true /\
  let (res, e1) := sendMsgs ([out_msg1] ++ [out_msg2]) (Engine_init true 0) in
  res = repeat true (S (length [out_msg1])) /\ queue_send e1 = [out_msg2] /\
  queue_send (sendFromQueueLoop_burst globals_on [true] e1) = [] /\
  sent_log (sendFromQueueLoop_burst globals_on [true] e1) = sent_log (Engine_init true 0) ++ [out_msg2].
Proof.
  split; [reflexivity|].
  exact (fast_send_keeps_latest globals_on [true] [out_msg1] out_msg2 (Engine_init true 0) eq_refl).
Defined.

(** ** Inbound queue *)

Lemma tl_skipn {A} (j : nat) (l : list A) : tl (skipn j l) = skipn (S j) l.
Proof.
  revert l; induction j as [|j IH]; intros [|x l]; try reflexivity.
  simpl. apply IH.
Qed.

Lemma lastn_snoc {A} (d : nat) (l : list A) (m : A) :
  (0 < d)%nat ->
  lastn d (l ++ [m]) =
  (if Nat.ltb (length (lastn d l)) d then lastn d l ++ [m] else tl (lastn d l) ++ [m]).
Proof.
  intros Hd. unfold lastn. rewrite length_skipn, length_app. cbn [length].
  destruct (Nat.ltb_spec (length l - (length l - d)) d) as [H|H].
  - replace (length l - d)%nat with 0%nat by lia.
    replace (length l + 1 - d)%nat with 0%nat by lia. reflexivity.
  - rewrite tl_skipn, skipn_app.
    replace (length l + 1 - d)%nat with (S (length l - d)) by lia.
    replace (S (length l - d) - length l)%nat with 0%nat by lia. reflexivity.
Qed.

Lemma onDataReceived_seq_reliable (g : Globals) (now : Z) (m : RCMessage) (e : Engine) :
  fast_mode e = false -> (0 < recv_depth e)%nat -> not_heartbeat m ->
  (length (queue_recv e) <= recv_depth e)%nat ->
  let e' := onDataReceived_seq g now m e in
  queue_recv e' = (if Nat.ltb (length (queue_recv e)) (recv_depth e)
                   then queue_recv e ++ [m] else tl (queue_recv e) ++ [m]) /\
  fast_mode e' = false /\ recv_depth e' = recv_depth e /\ recv_callback e' = recv_callback e /\
  callback_log e' = callback_log e ++ (if recv_callback e then [m] else []) /\
  recv_metrics e' = addSuccess g (recv_metrics e).
Proof.
  intros Hf Hd Hm Hl. unfold onDataReceived_seq, onDataReceived.
  destruct (bookkeeping_queue_recv true now m e) as [Q [F [D [C [L M]]]]].
  revert Q F D C L M. generalize (onDataReceived_bookkeeping true now m e) as e1.
  intros e1 Q F D C L M.
  apply Z.eqb_neq in Hm. rewrite Hm. rewrite F, Hf, D, Q.
  assert (R : reliable_enqueue (recv_depth e) 0 0 (queue_recv e) m
              = (true, if Nat.ltb (length (queue_recv e)) (recv_depth e)
                       then queue_recv e ++ [m] else tl (queue_recv e) ++ [m])).
  { destruct (Nat.ltb_spec (length (queue_recv e)) (recv_depth e)) as [Hlt|Hge].
    - unfold reliable_enqueue, xQueueSend. apply Nat.ltb_lt in Hlt. rewrite Hlt. reflexivity.
    - destruct (queue_recv e) as [|x q1] eqn:E; [simpl in Hge; lia|].
      change (tl (x :: q1)) with (skipn 0 q1).
      apply (reliable_enqueue_full _ 0 0 (x :: q1) m x q1); [simpl in *; lia | reflexivity]. }
  rewrite R. cbn [set_queue_recv recv_callback]. rewrite C.
  destruct (recv_callback e); cbn; rewrite ?L, ?M, ?F, ?D, ?C, ?app_nil_r; auto 10.
Qed.

Lemma onDataReceived_seq_fast (g : Globals) (now : Z) (m : RCMessage) (e : Engine) :
  fast_mode e = true -> not_heartbeat m ->
  let e' := onDataReceived_seq g now m e in
  queue_recv e' = [m] /\ fast_mode e' = true /\ recv_callback e' = recv_callback e /\
  callback_log e' = callback_log e ++ (if recv_callback e then [m] else []) /\
  recv_metrics e' = addSuccess g (recv_metrics e).
Proof.
  intros Hf Hm. unfold onDataReceived_seq, onDataReceived.
  destruct (bookkeeping_queue_recv true now m e) as [Q [F [D [C [L M]]]]].
  revert Q F D C L M. generalize (onDataReceived_bookkeeping true now m e) as e1.
  intros e1 Q F D C L M.
  apply Z.eqb_neq in Hm. rewrite Hm. rewrite F, Hf. cbn [xQueueOverwrite].
  cbn [set_queue_recv recv_callback]. rewrite C.
  destruct (recv_callback e); cbn; rewrite ?L, ?M, ?F, ?C, ?app_nil_r; auto 10.
Qed.

Lemma deliver_all_reliable_gen (g : Globals) (now : Z) (ms : list RCMessage) (e : Engine)
  (l : list RCMessage) :
  fast_mode e = false -> (0 < recv_depth e)%nat -> Forall not_heartbeat ms ->
  queue_recv e = lastn (recv_depth e) l ->
  let e' := deliver_all g now ms e in
  queue_recv e' = lastn (recv_depth e) (l ++ ms) /\
  fast_mode e' = false /\ recv_depth e' = recv_depth e /\ recv_callback e' = recv_callback e /\
  callback_log e' = callback_log e ++ (if recv_callback e then ms else []) /\
  recv_metrics e' = Nat.iter (length ms) (addSuccess g) (recv_metrics e).
Proof.
  revert e l; induction ms as [|m ms IH]; intros e l Hf Hd Hms Hq.
  - cbn [deliver_all length Nat.iter]. rewrite app_nil_r. destruct (recv_callback e); rewrite ?app_nil_r; repeat split; auto.
  - inversion Hms as [|? ? Hm Hms']; subst.
    assert (Hl : (length (queue_recv e) <= recv_depth e)%nat).
    { rewrite Hq. unfold lastn. rewrite length_skipn. lia. }
    destruct (onDataReceived_seq_reliable g now m e Hf Hd Hm Hl) as (Q1 & F1 & D1 & C1 & L1 & M1).
    cbn [deliver_all].
    rewrite <- D1 in Hd.
    assert (Hq1 : queue_recv (onDataReceived_seq g now m e)
                  = lastn (recv_depth (onDataReceived_seq g now m e)) (l ++ [m])).
    { rewrite Q1, D1, lastn_snoc by (rewrite <- D1; exact Hd). rewrite Hq. reflexivity. }
    destruct (IH _ (l ++ [m]) F1 Hd Hms' Hq1) as (Q2 & F2 & D2 & C2 & L2 & M2).
    rewrite D1 in *. rewrite C1 in *.
    split; [rewrite Q2, <- app_assoc; reflexivity|].
    split; [exact F2|]. split; [exact D2|]. split; [exact C2|].
    split.
    + rewrite L2, L1, <- app_assoc. destruct (recv_callback e); reflexivity.
    + rewrite M2, M1. cbn [length]. rewrite Nat.iter_succ_r. reflexivity.
Qed.

(** Reliable mode, sequential run, empty inbound queue: after any sequence of
    non-heartbeat messages the queue holds the last [recv_depth] of them in
    arrival order; every message reaches the callback (if one is set) and
    counts as one receive success. *)
Theorem reliable_inbound_keeps_last (g : Globals) (now : Z) (ms : list RCMessage) (e : Engine) :
  fast_mode e = false -> (0 < recv_depth e)%nat -> Forall not_heartbeat ms -> queue_recv e = [] ->
  let e' := deliver_all g now ms e in
  queue_recv e' = skipn (length ms - recv_depth e) ms /\
  callback_log e' = callback_log e ++ (if recv_callback e then ms else []) /\
  recv_metrics e' = Nat.iter (length ms) (addSuccess g) (recv_metrics e).
Proof.
  intros Hf Hd Hms Hq.
  destruct (deliver_all_reliable_gen g now ms e [] Hf Hd Hms Hq) as (Q & _ & _ & _ & L & M).
  split; [exact Q|]. split; [exact L | exact M].
Qed.

Lemma deliver_all_fast_gen (g : Globals) (now : Z) (ms : list RCMessage) (m : RCMessage) (e : Engine) :
  fast_mode e = true -> Forall not_heartbeat (ms ++ [m]) ->
  let e' := deliver_all g now (ms ++ [m]) e in
  queue_recv e' = [m] /\ recv_callback e' = recv_callback e /\
  callback_log e' = callback_log e ++ (if recv_callback e then ms ++ [m] else []) /\
  recv_metrics e' = Nat.iter (S (length ms)) (addSuccess g) (recv_metrics e).
Proof.
  revert e; induction ms as [|m0 ms IH]; intros e Hf Hms.
  - inversion Hms as [|? ? Hm _]; subst.
    destruct (onDataReceived_seq_fast g now m e Hf Hm) as (Q & F & C & L & M).
    cbn [app deliver_all]. auto.
  - inversion Hms as [|? ? Hm Hms']; subst.
    destruct (onDataReceived_seq_fast g now m0 e Hf Hm) as (Q1 & F1 & C1 & L1 & M1).
    cbn [app deliver_all].
    destruct (IH _ F1 Hms') as (Q2 & C2 & L2 & M2).
    rewrite C1 in *.
    split; [exact Q2|]. split; [exact C2|]. split.
    + rewrite L2, L1, <- app_assoc. destruct (recv_callback e); reflexivity.
    + rewrite M2, M1. cbn [length]. rewrite (Nat.iter_succ_r (S (length ms))). reflexivity.
Qed.

(** Fast mode, sequential run: after any non-empty sequence of non-heartbeat
    messages the inbound queue holds only the last one; every message reaches
    the callback (if one is set) and counts as one receive success. *)
Theorem fast_inbound_keeps_latest (g : Globals) (now : Z) (ms : list RCMessage) (m : RCMessage)
  (e : Engine) :
  fast_mode e = true -> Forall not_heartbeat (ms ++ [m]) ->
  let e' := deliver_all g now (ms ++ [m]) e in
  queue_recv e' = [m] /\
  callback_log e' = callback_log e ++ (if recv_callback e then ms ++ [m] else []) /\
  recv_metrics e' = Nat.iter (S (length ms)) (addSuccess g) (recv_metrics e).
Proof.
  intros Hf Hms.
  destruct (deliver_all_fast_gen g now ms m e Hf Hms) as (Q & _ & L & M). auto.
Qed.

(** ** Heartbeat timing *)
Lemma onDataReceived_last_rx (g : Globals) (lk : bool) (now : Z) (k1 k2 : nat) (msg : RCMessage) (e : Engine) :
  last_heartbeat_rx_ms (onDataReceived g lk now k1 k2 msg e) =
  if lk then u32 now else last_heartbeat_rx_ms e.
Proof.
  assert (H : last_heartbeat_rx_ms (onDataReceived_bookkeeping lk now msg e) =
              if lk then u32 now else last_heartbeat_rx_ms e).
  { unfold onDataReceived_bookkeeping. destruct lk; [|reflexivity].
    destruct (conn_eqb (conn_state e) CONNECTED); reflexivity. }
  unfold onDataReceived. rewrite <- H.
  generalize (onDataReceived_bookkeeping lk now msg e) as e1. intros e1.
  destruct (type msg =? RCMSG_TYPE_HEARTBEAT); [reflexivity|].
  destruct (fast_mode e1).
  - simpl. destruct (recv_callback e1); reflexivity.
  - destruct (reliable_enqueue _ _ _ _ _) as [[|] q]; simpl;
      [destruct (recv_callback e1)|]; reflexivity.
Qed.

(** After a message is received with the lock taken at time [t], a heartbeat
    check at time [t'] leaves the link CONNECTED when at most 300 ms have
    passed (computed modulo 2^32 as [millis()] does) and DISCONNECTED
    otherwise. *)
Theorem receive_then_check (g : Globals) (t t' : Z) (k1 k2 : nat) (msg : RCMessage) (e : Engine) :
  conn_state (checkHeartbeat t' (onDataReceived g true t k1 k2 msg e))
  = if HEARTBEAT_TIMEOUT_MS <? u32 (t' - t) then DISCONNECTED else CONNECTED.
Proof.
  pose proof (onDataReceived_conn_state g true t k1 k2 msg e) as C.
  pose proof (onDataReceived_last_rx g true t k1 k2 msg e) as L.
  revert C L. generalize (onDataReceived g true t k1 k2 msg e) as e1. intros e1 C L.
  unfold checkHeartbeat. rewrite L, C.
  replace (u32 (t' - u32 t)) with (u32 (t' - t))
    by (unfold u32; rewrite Zminus_mod_idemp_r; reflexivity).
  destruct (HEARTBEAT_TIMEOUT_MS <? u32 (t' - t)); [reflexivity | exact C].
Qed.

(** [checkHeartbeat] survives the wrap-around of [millis()]: a check at most
    300 ms after the last reception, even when the clock has wrapped past
    2^32 in between, changes nothing. *)
Theorem checkHeartbeat_wraparound (d : Z) (e : Engine) :
  0 <= last_heartbeat_rx_ms e < ULONG_MOD -> 0 <= d <= HEARTBEAT_TIMEOUT_MS ->
  checkHeartbeat (u32 (last_heartbeat_rx_ms e + d)) e = e.
Proof.
  intros Hl Hd. unfold checkHeartbeat, u32.
  rewrite Zminus_mod_idemp_l.
  replace (last_heartbeat_rx_ms e + d - last_heartbeat_rx_ms e) with d by lia.
  rewrite Z.mod_small by (unfold ULONG_MOD, HEARTBEAT_TIMEOUT_MS in *; lia).
  replace (HEARTBEAT_TIMEOUT_MS <? d) with false; [reflexivity|].
  symmetry. apply Z.ltb_ge. lia.
Qed.

Lemma checkHeartbeat_wraparound_witness :
  0 <= last_heartbeat_rx_ms (set_last_rx (ULONG_MOD - 100) (Engine_init false 0)) < ULONG_MOD /\
  0 <= 250 <= HEARTBEAT_TIMEOUT_MS /\
  u32 (last_heartbeat_rx_ms (set_last_rx (ULONG_MOD - 100) (Engine_init false 0)) + 250) = 150 /\
  checkHeartbeat (u32 (last_heartbeat_rx_ms (set_last_rx (ULONG_MOD - 100) (Engine_init false 0)) + 250))
    (set_last_rx (ULONG_MOD - 100) (Engine_init false 0))
  = set_last_rx (ULONG_MOD - 100) (Engine_init false 0).
Proof.
  assert (H1 : 0 <= last_heartbeat_rx_ms (set_last_rx (ULONG_MOD - 100) (Engine_init false 0)) < ULONG_MOD)
    by (simpl; unfold ULONG_MOD; lia).
  assert (H2 : 0 <= 250 <= HEARTBEAT_TIMEOUT_MS) by (unfold HEARTBEAT_TIMEOUT_MS; lia).
  split; [exact H1|]. split; [exact H2|]. split; [reflexivity|].
  exact (checkHeartbeat_wraparound 250 (set_last_rx (ULONG_MOD - 100) (Engine_init false 0)) H1 H2).
Defined.

Lemma sendSysMsg_fields (t : Z) (e : Engine) :
  conn_state (sendSysMsg t e) = conn_state e /\
  last_heartbeat_rx_ms (sendSysMsg t e) = last_heartbeat_rx_ms e /\
  queue_recv (sendSysMsg t e) = queue_recv e /\
  queue_send (sendSysMsg t e) =
  (if fast_mode e then [mkMsg t (my_addr e) (repeat 0 25)]
   else if Nat.ltb (length (queue_send e)) (send_depth e)
        then queue_send e ++ [mkMsg t (my_addr e) (repeat 0 25)] else queue_send e).
Proof.
  unfold sendSysMsg, sendMsg, xQueueOverwrite, xQueueSend.
  destruct (fast_mode e); [simpl; auto|]. destruct (Nat.ltb _ _); simpl; auto.
Qed.

(** A heartbeat timer tick queues a heartbeat (type 3, own address, zero
    payload): it overwrites the slot in fast mode, is appended when the
    reliable queue has room and is silently dropped when it is full; the
    inbound queue is untouched, and the connection state becomes what
    [checkHeartbeat] alone would give. *)
Theorem heartbeat_tick_effects (now : Z) (e : Engine) :
  let hb := mkMsg RCMSG_TYPE_HEARTBEAT (my_addr e) (repeat 0 25) in
  let e' := heartbeatTimerCallback now e in
  queue_send e' =
    (if fast_mode e then [hb]
     else if Nat.ltb (length (queue_send e)) (send_depth e) then queue_send e ++ [hb]
     else queue_send e) /\
  queue_recv e' = queue_recv e /\
  conn_state e' = conn_state (checkHeartbeat now e).
Proof.
  cbv zeta. unfold heartbeatTimerCallback.
  destruct (sendSysMsg_fields RCMSG_TYPE_HEARTBEAT e) as (C & L & Q & S).
  revert C L Q S. generalize (sendSysMsg RCMSG_TYPE_HEARTBEAT e) as e1. intros e1 C L Q S.
  unfold checkHeartbeat. rewrite L, C.
  destruct (HEARTBEAT_TIMEOUT_MS <? _); [destruct (conn_eqb _ _)|]; cbn; auto.
Qed.

(** ** Metrics counters *)




(** ** Instances of the properties *)
Lemma espnow_peer_table_invariant_witness :
  peer_registered [] (Engine_init false 0) /\
  (let '(tbl', e') := espnow_setPeerAddr true (Some addr_sample) [] (Engine_init false 0) in
   peer_registered tbl' e') /\
  (let '(tbl', e') := espnow_unsetPeerAddr true [] (Engine_init false 0) in peer_registered tbl' e') /\
  espnow_setPeerAddr true None [] (Engine_init false 0) = ([], Engine_init false 0) /\
  (forall p, firstn RC_ADDR_SIZE p = repeat 0 RC_ADDR_SIZE ->
   espnow_setPeerAddr true (Some p) [] (Engine_init false 0) = ([], Engine_init false 0)).
Proof.
  assert (H : peer_registered [] (Engine_init false 0)) by (left; reflexivity).
  split; [exact H|].
  exact (espnow_peer_table_invariant true true (Some addr_sample) [] (Engine_init false 0) H).
Defined.

Lemma nrf_mac_roundtrip_iff_witness :
  length mac_sample = RC_ADDR_SIZE /\ nth 0 mac_sample 0 = 210 /\
  nrfToMacAddress (macToNrfAddress mac_sample) = mac_sample.
Proof.
  assert (H : length mac_sample = RC_ADDR_SIZE) by reflexivity.
  split; [exact H|]. split; [reflexivity|].
  apply (nrf_mac_roundtrip_iff mac_sample H). reflexivity.
Defined.

Lemma nrf24_handshake_targets_peer_pipe_witness :
  length (repeat 0 25) = 25%nat /\ handshake_completed nrf_sample = false /\
  firstn RC_ADDR_SIZE (my_addr (nrf_engine nrf_sample)) <> fst (generateMyNrfAddress chip_sample) /\
  let hb := mkMsg RCMSG_TYPE_HEARTBEAT (fst (generateMyNrfAddress chip_sample)) (repeat 0 25) in
  nrf24_receive_frame 32 (msg_bytes hb) nrf_sample
  = (mkNrf24 true 1 (snd (generateMyNrfAddress chip_sample))
       (set_peer_addr (fst (generateMyNrfAddress chip_sample)) (nrf_engine nrf_sample)), Some hb).
Proof.
  assert (H1 : length (repeat 0 25) = 25%nat) by reflexivity.
  assert (H2 : handshake_completed nrf_sample = false) by reflexivity.
  assert (H3 : firstn RC_ADDR_SIZE (my_addr (nrf_engine nrf_sample)) <> fst (generateMyNrfAddress chip_sample))
    by (vm_compute; discriminate).
  split; [exact H1|]. split; [exact H2|]. split; [exact H3|].
  exact (nrf24_handshake_targets_peer_pipe chip_sample (repeat 0 25) nrf_sample H1 H2 H3).
Defined.

Lemma not_heartbeat_out_msgs : Forall not_heartbeat (repeat out_msg1 12 ++ [out_msg2]).
Proof.
  apply Forall_forall. intros x Hx. apply in_app_or in Hx.
  destruct Hx as [Hx | [<- | []]]; [apply repeat_spec in Hx; subst x|];
    unfold not_heartbeat; simpl; discriminate.
Qed.

Lemma reliable_inbound_keeps_last_witness :
  let e' := deliver_all globals_on 0 (repeat out_msg1 12 ++ [out_msg2]) (Engine_init false 0) in
  fast_mode (Engine_init false 0) = false /\ (0 < recv_depth (Engine_init false 0))%nat /\
  Forall not_heartbeat (repeat out_msg1 12 ++ [out_msg2]) /\ queue_recv (Engine_init false 0) = [] /\
  queue_recv e' = skipn (length (repeat out_msg1 12 ++ [out_msg2]) - recv_depth (Engine_init false 0))
                    (repeat out_msg1 12 ++ [out_msg2]) /\
  callback_log e' = callback_log (Engine_init false 0) ++
                    (if recv_callback (Engine_init false 0) then repeat out_msg1 12 ++ [out_msg2] else []) /\
  recv_metrics e' = Nat.iter (length (repeat out_msg1 12 ++ [out_msg2])) (addSuccess globals_on)
                      (recv_metrics (Engine_init false 0)).
Proof.
  cbv zeta.
  assert (H2 : (0 < recv_depth (Engine_init false 0))%nat) by (cbn; unfold QUEUE_DEPTH_RECV; lia).
  split; [reflexivity|]. split; [exact H2|]. split; [exact not_heartbeat_out_msgs|].
  split; [reflexivity|].
  exact (reliable_inbound_keeps_last globals_on 0 _ (Engine_init false 0) eq_refl H2
           not_heartbeat_out_msgs eq_refl).
Defined.

Lemma fast_inbound_keeps_latest_witness :
  let e' := deliver_all globals_on 0 (repeat out_msg1 12 ++ [out_msg2]) (Engine_init true 0) in
  fast_mode (Engine_init true 0) = true /\
  Forall not_heartbeat (repeat out_msg1 12 ++ [out_msg2]) /\
  queue_recv e' = [out_msg2] /\
  callback_log e' = callback_log (Engine_init true 0) ++
                    (if recv_callback (Engine_init true 0) then repeat out_msg1 12 ++ [out_msg2] else []) /\
  recv_metrics e' = Nat.iter (S (length (repeat out_msg1 12))) (addSuccess globals_on)
                      (recv_metrics (Engine_init true 0)).
Proof.
  cbv zeta. split; [reflexivity|]. split; [exact not_heartbeat_out_msgs|].
  exact (fast_inbound_keeps_latest globals_on 0 (repeat out_msg1 12) out_msg2 (Engine_init true 0)
           eq_refl not_heartbeat_out_msgs).
Defined.


(** ** NRF24 link loss *)

Lemma nrf24_receive_before_handshake (len : Z) (frame : list Z) (s : Nrf24) (m : RCMessage) :
  handshake_completed s = false ->
  snd (nrf24_receive_frame len frame s) = Some m -> type m = RCMSG_TYPE_HEARTBEAT.
Proof.
  intros Hh. unfold nrf24_receive_frame.
  destruct ((len =? 0) || (32 <? len)); [discriminate|]. cbv zeta.
  destruct (negb (len =? RC_MESSAGE_MAX_SIZE)); [discriminate|].
  destruct (memcmp_eq _ _ _); [discriminate|].
  match goal with |- context [type ?p =? RCMSG_TYPE_HEARTBEAT] =>
    destruct (Z.eqb_spec (type p) RCMSG_TYPE_HEARTBEAT) as [Ht|Ht] end.
  - cbn [snd]. intros H. injection H. intros <-. exact Ht.
  - rewrite Hh. destruct (_ =? RCMSG_TYPE_DATA); discriminate.
Qed.

(** When the heartbeat timeout expires on a CONNECTED NRF24 node, its
    [checkHeartbeat] disconnects, resets the handshake and selects the
    broadcast pipe; from then on the receive loop forwards only heartbeats
    to [onDataReceived], DATA frames being dropped until a heartbeat
    completes a new handshake. *)
Theorem nrf24_timeout_resets_handshake (now : Z) (s : Nrf24) :
  conn_state (nrf_engine s) = CONNECTED ->
  HEARTBEAT_TIMEOUT_MS < u32 (now - last_heartbeat_rx_ms (nrf_engine s)) ->
  let s' := nrf24_checkHeartbeat now s in
  conn_state (nrf_engine s') = DISCONNECTED /\ handshake_completed s' = false /\ pipeType s' = 0 /\
  nrf_peer_addr s' = nrf_peer_addr s /\
  (forall len frame m, snd (nrf24_receive_frame len frame s') = Some m -> type m = RCMSG_TYPE_HEARTBEAT).
Proof.
  intros Hc Ht.
  assert (E : checkHeartbeat now (nrf_engine s) = set_conn_state DISCONNECTED (nrf_engine s)).
  { unfold checkHeartbeat. apply Z.ltb_lt in Ht. rewrite Ht, Hc. reflexivity. }
  assert (P : forall x : Nrf24, handshake_completed x = false ->
              handshake_completed (switchToBroadcastPipe x) = false /\ pipeType (switchToBroadcastPipe x) = 0 /\
              nrf_engine (switchToBroadcastPipe x) = nrf_engine x /\
              nrf_peer_addr (switchToBroadcastPipe x) = nrf_peer_addr x).
  { intros x Hx. unfold switchToBroadcastPipe.
    destruct (Z.eqb_spec (pipeType x) 0); cbn; auto. }
  assert (D : nrf24_checkHeartbeat now s =
              switchToBroadcastPipe (mkNrf24 false (pipeType s) (nrf_peer_addr s)
                                       (set_conn_state DISCONNECTED (nrf_engine s)))).
  { unfold nrf24_checkHeartbeat. cbn [nrf_engine pipeType nrf_peer_addr]. rewrite E.
    reflexivity. }
  cbv zeta. rewrite D.
  destruct (P (mkNrf24 false (pipeType s) (nrf_peer_addr s) (set_conn_state DISCONNECTED (nrf_engine s))) eq_refl)
    as (P1 & P2 & P3 & P4).
  split; [rewrite P3; reflexivity|]. split; [exact P1|]. split; [exact P2|]. split; [exact P4|].
  intros len frame m. apply nrf24_receive_before_handshake. exact P1.
Qed.

Definition nrf_connected_sample : Nrf24 :=
  mkNrf24 true 1 [0; 17; 34; 51; 68] (set_last_rx 1000 (set_conn_state CONNECTED (Engine_init false 0))).

Lemma nrf24_timeout_resets_handshake_witness :
  conn_state (nrf_engine nrf_connected_sample) = CONNECTED /\
  HEARTBEAT_TIMEOUT_MS < u32 (1400 - last_heartbeat_rx_ms (nrf_engine nrf_connected_sample)) /\
  let s' := nrf24_checkHeartbeat 1400 nrf_connected_sample in
  conn_state (nrf_engine s') = DISCONNECTED /\ handshake_completed s' = false /\ pipeType s' = 0 /\
  nrf_peer_addr s' = nrf_peer_addr nrf_connected_sample /\
  (forall len frame m, snd (nrf24_receive_frame len frame s') = Some m -> type m = RCMSG_TYPE_HEARTBEAT).
Proof.
  assert (H1 : conn_state (nrf_engine nrf_connected_sample) = CONNECTED) by reflexivity.
  assert (H2 : HEARTBEAT_TIMEOUT_MS < u32 (1400 - last_heartbeat_rx_ms (nrf_engine nrf_connected_sample)))
    by (vm_compute; reflexivity).
  split; [exact H1|]. split; [exact H2|].
  exact (nrf24_timeout_resets_handshake 1400 nrf_connected_sample H1 H2).
Defined.
